(** * AI-Agents-Course: the tool-calling loop of HW1 and the readability tool of HW3

    A shallow embedding of [HW1/main.py] (the mock tables, the two tools, the
    registry and [get_completion_loop]) and of [analyze_readability] from
    [HW3/mcp-server.py], followed by the properties of the specification
    that concern them.

    Python values are embedded as the JSON-shaped type [PyVal]; code that
    can raise returns an [Outcome]; the list [messages], which the loop
    mutates in place and which the caller still holds after an exception,
    is a component of an explicit state threaded through a state-and-exception
    monad. *)

From stdpp Require Import base strings list gmap pretty.
From Stdlib Require Import ZArith QArith.

Local Open Scope Z_scope.
#[local] Set Warnings "-register-all".
Local Open Scope string_scope.
Local Open Scope list_scope.

(** ** Python values and exceptions *)

(** The values [json.loads] can build and [json.dumps] can write. A float is
    kept as the text [repr] prints for it; a dict is the list of its items in
    insertion order (the keys of a dict are pairwise distinct). *)
Inductive PyVal : Type :=
| PyNone
| PyBool (b : bool)
| PyInt (z : Z)
| PyFloat (repr : string)
| PyStr (s : string)
| PyList (elems : list PyVal)
| PyDict (items : list (string * PyVal)).

(** The exceptions the modelled code can raise. [APIError] stands for any
    failure of the call to the chat-completions client; [JSONDecodeError],
    [ValueError] and [RecursionError] are what [json.loads] raises: on a text
    that is not JSON, on an integer literal beyond the digit limit, and on a
    text nested too deep. *)
Inductive PyExn : Type :=
| JSONDecodeError
| ValueError
| RecursionError
| KeyError (key : string)
| TypeError
| ZeroDivisionError
| APIError
| Exception (message : string).

Inductive Outcome (A : Type) : Type :=
| Return (a : A)
| Raise (e : PyExn).
Arguments Return {A} a.
Arguments Raise {A} e.

(** [bool(v)] *)
Definition truthy (v : PyVal) : bool :=
  match v with
  | PyNone => false
  | PyBool b => b
  | PyInt z => negb (Z.eqb z 0)
  | PyFloat r => negb (String.eqb r "0.0" || String.eqb r "-0.0")
  | PyStr s => negb (String.eqb s EmptyString)
  | PyList l => match l with [] => false | _ => true end
  | PyDict d => match d with [] => false | _ => true end
  end.

(** Lists and dicts are the values without a hash. *)
Definition hashable (v : PyVal) : bool :=
  match v with
  | PyList _ | PyDict _ => false
  | _ => true
  end.

(** [d.get(key)] on a dict with string keys: an unhashable key (a list or a
    dict) raises [TypeError]; a key that is not a string equals no key. *)
Definition dict_get {V : Type} (d : gmap string V) (key : PyVal) : Outcome (option V) :=
  match key with
  | PyStr s => Return (d !! s)
  | PyList _ | PyDict _ => Raise TypeError
  | _ => Return None
  end.

(** The [json] module of the standard library, as an interface. [json_loads]
    is the value [json.loads] returns, [None] when it raises instead, and
    [json_loads_error] is then the exception it raises on that text. *)
Class Json : Type := {
  json_loads : string → option PyVal;
  json_loads_error : string → PyExn;
  json_dumps : PyVal → string
}.

(** ** HW1/main.py *)
Module HW1.

Definition MOCK_DB : gmap string PyVal :=
  <["101" := PyDict [("name", PyStr "Bluetooth Speaker");
                     ("description", PyStr "Portable speaker with deep bass");
                     ("price", PyFloat "59.99")]]>
  (<["202" := PyDict [("name", PyStr "Noise Cancelling Headphones");
                      ("description", PyStr "High fidelity wireless ANC headphones");
                      ("price", PyFloat "129.99")]]>
  (<["303" := PyDict [("name", PyStr "Smart Fitness Watch");
                      ("description", PyStr "Tracks heart rate, sleep, and activity");
                      ("price", PyFloat "89.99")]]> ∅)).

Definition MOCK_DISCOUNTS : gmap string Z :=
  <["101" := 50]> (<["202" := 20]> (<["303" := 15]> ∅)).

Definition get_product_info (product_id : PyVal) : Outcome PyVal :=
  match dict_get MOCK_DB product_id with
  | Raise e => Raise e
  | Return product =>
      Return (match product with
              | Some p => if truthy p then p
                          else PyDict [("error", PyStr "Product not found")]
              | None => PyDict [("error", PyStr "Product not found")]
              end)
  end.

Definition get_discount (product_id : PyVal) : Outcome PyVal :=
  match dict_get MOCK_DISCOUNTS product_id with
  | Raise e => Raise e
  | Return discount =>
      Return (match discount with
              | Some d => PyDict [("discount_percentage", PyInt d)]
              | None => PyDict [("discount_percentage", PyInt 0)]
              end)
  end.

Definition available_functions : gmap string (PyVal → Outcome PyVal) :=
  <["get_product_info" := get_product_info]>
  (<["get_discount" := get_discount]> ∅).

(** One entry of [tools]: a function schema, whose ["type"] is always
    ["function"] and whose parameters are always an ["object"]; each property
    is a name with its type and its description. *)
Record ToolSchema : Type := {
  schema_name : string;
  schema_description : string;
  schema_properties : list (string * (string * string));
  schema_required : list string
}.

Definition tools : list ToolSchema :=
  [{| schema_name := "get_product_info";
      schema_description := "Get product information.";
      schema_properties := [("product_id", ("string", "Product ID such as '101'"))];
      schema_required := ["product_id"] |};
   {| schema_name := "get_discount";
      schema_description := "Get active discount percentage for a product.";
      schema_properties := [("product_id", ("string", "Product ID such as '101'"))];
      schema_required := ["product_id"] |}].

(** A call of [f] with [function_args] unpacked as keyword arguments, for a
    function of the one parameter [product_id]: the unpacked value must be a
    mapping, and its keys must be exactly the parameter name; anything else
    is a [TypeError]. *)
Definition call_kwargs (f : PyVal → Outcome PyVal) (function_args : PyVal) : Outcome PyVal :=
  match function_args with
  | PyDict [(k, v)] => if String.eqb k "product_id" then f v else Raise TypeError
  | _ => Raise TypeError
  end.

(** *** Messages *)

Inductive Role : Type := system | user | assistant | tool.

(** One entry of [tool_calls]: of the engine's response (where [tc_arguments]
    is the JSON text the engine wrote), and of an assistant message of the
    conversation; its ["type"] is always ["function"]. *)
Record ToolCall : Type := {
  tc_id : string;
  tc_name : string;
  tc_arguments : string
}.

(** [response.choices[0].message] *)
Record ChatCompletionMessage : Type := {
  content : option string;
  tool_calls : option (list ToolCall)
}.

(** The dicts of the list [messages]. *)
Inductive Message : Type :=
| ContentMessage (role : Role) (text : string)
| AssistantMessage (calls : list ToolCall)
| ToolMessage (tool_call_id name text : string).

(** *** State: the caller's list and the chat-completions client

    [pending] holds the responses the client will give to the coming calls of
    [create], in order; [requests] records the value of [messages] at every
    call made so far, oldest first. *)
Record State : Type := {
  messages : list Message;
  pending : list ChatCompletionMessage;
  requests : list (list Message)
}.

Definition M (A : Type) : Type := State → Outcome A * State.

#[export] Instance M_ret : MRet M := λ A a st, (Return a, st).
#[export] Instance M_bind : MBind M := λ A B f m st,
  match m st with
  | (Return a, st') => f a st'
  | (Raise e, st') => (Raise e, st')
  end.

Definition raise {A : Type} (e : PyExn) : M A := λ st, (Raise e, st).

Definition lift {A : Type} (o : Outcome A) : M A := λ st, (o, st).

(** [messages.append(m)] *)
Definition append (m : Message) : M unit := λ st,
  (Return (), {| messages := messages st ++ [m];
                 pending := pending st;
                 requests := requests st |}).

(** [client.chat.completions.create(model=model, messages=messages, ...)]
    followed by [response.choices[0].message]. *)
Definition create : M ChatCompletionMessage := λ st,
  let sent := {| messages := messages st;
                 pending := tail (pending st);
                 requests := requests st ++ [messages st] |} in
  match pending st with
  | msg :: _ => (Return msg, sent)
  | [] => (Raise APIError, sent)
  end.

(** [for x in xs: body] *)
Fixpoint for_each {A : Type} (body : A → M unit) (xs : list A) : M unit :=
  match xs with
  | [] => mret ()
  | x :: xs' => body x ;; for_each body xs'
  end.

Section Loop.
Context `{!Json}.

(** The dict of lines 102-114. *)
Definition assistant_message (tool_id function_name : string) (function_args : PyVal) : Message :=
  AssistantMessage [{| tc_id := tool_id;
                       tc_name := function_name;
                       tc_arguments := json_dumps function_args |}].

(** The dict of lines 116-121. *)
Definition tool_message (tool_id function_name : string) (function_result : PyVal) : Message :=
  ToolMessage tool_id function_name (json_dumps function_result).

(** The body of [for tool_call in msg.tool_calls]. *)
Definition tool_call_body (tool_call : ToolCall) : M unit :=
  let function_name := tc_name tool_call in
  function_args ← lift (match json_loads (tc_arguments tool_call) with
                        | Some v => Return v
                        | None => Raise (json_loads_error (tc_arguments tool_call))
                        end);
  let tool_id := tc_id tool_call in
  function_to_call ← lift (match available_functions !! function_name with
                           | Some f => Return f
                           | None => Raise (KeyError function_name)
                           end);
  function_result ← lift (call_kwargs function_to_call function_args);
  append (assistant_message tool_id function_name function_args);;
  append (tool_message tool_id function_name function_result).

(** [not msg.tool_calls]: [None] and the empty list are both falsy. *)
Definition no_tool_calls (msg : ChatCompletionMessage) : bool :=
  match tool_calls msg with
  | None | Some [] => true
  | Some (_ :: _) => false
  end.

(** One pass through the body of [for iteration in range(max_iterations)]:
    [Some msg] when the body executes [return msg]. *)
Definition iteration : M (option ChatCompletionMessage) :=
  msg ← create;
  if no_tool_calls msg then mret (Some msg)
  else (for_each tool_call_body (default [] (tool_calls msg));; mret None).

(** The loop over [range(n)] and the [raise] after it. *)
Fixpoint iterate (n : nat) : M ChatCompletionMessage :=
  match n with
  | O => raise (Exception "Max iterations reached without completion.")
  | S n' => r ← iteration;
            match r with
            | Some msg => mret msg
            | None => iterate n'
            end
  end.

(** [range] of a negative bound is empty. The parameter [model] only travels
    to the client, and the two [print] calls write to the terminal; neither
    is part of the state. *)
Definition get_completion_loop (max_iterations : Z) : M ChatCompletionMessage :=
  iterate (Z.to_nat max_iterations).

End Loop.

(** The state in which a caller invokes the loop: its list of messages and a
    client that will answer with [script]. *)
Definition initially (msgs : list Message) (script : list ChatCompletionMessage) : State :=
  {| messages := msgs; pending := script; requests := [] |}.

End HW1.

(** ** HW3/mcp-server.py *)
Module HW3.

(** [a / b] on two ints. The quotient is kept exact; Python rounds it to the
    nearest float, which moves it across the integer 6 for no text that fits
    in memory. *)
Definition truediv (a b : Z) : Outcome Q :=
  if Z.eqb b 0 then Raise ZeroDivisionError else Return (inject_Z a / inject_Z b)%Q.

Section Readability.
(** A text is a list of characters of any alphabet; [isspace] tells which of
    them [str.split] treats as whitespace. *)
Context {Char : Type} (isspace : Char → bool).

(** [content.split()]: the maximal runs of characters that are not
    whitespace, left to right; [word] holds the run being read, reversed. *)
Fixpoint split_from (word : list Char) (s : list Char) : list (list Char) :=
  match s with
  | [] => match word with [] => [] | _ => [rev word] end
  | c :: s' =>
      if isspace c
      then match word with
           | [] => split_from [] s'
           | _ => rev word :: split_from [] s'
           end
      else split_from (c :: word) s'
  end.

Definition split (s : list Char) : list (list Char) := split_from [] s.

(** [sum(len(word) for word in words)] *)
Definition sum_len (words : list (list Char)) : Z :=
  foldr (λ word acc, Z.of_nat (length word) + acc) 0 words.

Definition newline : string := String (Ascii.ascii_of_nat 10) EmptyString.

Definition analyze_readability (content : list Char) : Outcome string :=
  let word_count := Z.of_nat (length (split content)) in
  match truediv (sum_len (split content)) (Z.max word_count 1) with
  | Raise e => Raise e
  | Return avg_word_length =>
      let level := if negb (Qle_bool 6 avg_word_length) then "8th grade" else "College" in
      let clarity := if negb (Qle_bool 6 avg_word_length) then "Good" else "Could be simpler" in
      Return (newline +:+ "Word Count: " +:+ pretty word_count +:+ newline +:+
              "Reading Level: " +:+ level +:+ newline +:+
              "Clarity: " +:+ clarity +:+ newline)
  end.

End Readability.

(** The whitespace of [str.split] among the ASCII characters: tab, the line
    and page breaks, the four separator controls and the space. *)
Definition ascii_isspace (c : Ascii.ascii) : bool :=
  let n := Ascii.nat_of_ascii c in
  ((9 <=? n)%nat && (n <=? 13)%nat) || ((28 <=? n)%nat && (n <=? 32)%nat).

End HW3.

(** ** HW3/mcp-server.py, the other tools

    A text is the list of its code points. *)
Module McpServer.

Abbreviation str := (list N).

(** The text of a literal of the source (all of them are ASCII). *)
Definition lit (s : string) : str :=
  (λ c, Ascii.N_of_ascii c) <$> String.list_ascii_of_string s.

(** [sep.join(parts)] *)
Fixpoint join (sep : str) (parts : list str) : str :=
  match parts with
  | [] => []
  | [part] => part
  | part :: parts' => part ++ sep ++ join sep parts'
  end.

(** [s.startswith(sub)] *)
Fixpoint starts_with (sub s : str) : bool :=
  match sub, s with
  | [], _ => true
  | _ :: _, [] => false
  | a :: sub', b :: s' => N.eqb a b && starts_with sub' s'
  end.

(** [sub in s] *)
Fixpoint contains (sub s : str) : bool :=
  starts_with sub s ||
  match s with
  | [] => false
  | _ :: s' => contains sub s'
  end.

(** [s.count(sub)] for a [sub] that is not empty: the occurrences found from
    left to right without overlap; [skip] characters of the last occurrence
    are still to be passed. *)
Fixpoint count_skipping (sub : str) (skip : nat) (s : str) : nat :=
  match s with
  | [] => 0
  | _ :: s' =>
      match skip with
      | S skip' => count_skipping sub skip' s'
      | O => if starts_with sub s
             then S (count_skipping sub (length sub - 1) s')
             else count_skipping sub 0 s'
      end
  end.

(** [s.count(sub)]: the empty text occurs between any two characters and at
    both ends. *)
Definition count (sub s : str) : Z :=
  match sub with
  | [] => Z.of_nat (length s) + 1
  | _ => Z.of_nat (count_skipping sub 0 s)
  end.

(** [d.get(key)] and [key in d] for a dict literal with literal keys. *)
Definition dict_lookup {V : Type} (d : list (string * V)) (key : str) : option V :=
  snd <$> List.find (λ kv, bool_decide (lit (fst kv) = key)) d.

(** *** get_product_catalog *)

(** A record of [catalog]; the price is kept as the text of the float. *)
Record Product : Type := {
  name : string;
  category : string;
  price : string;
  specifications : list (string * string);
  supplier_notes : string
}.

Definition catalog : list (string * Product) :=
  [("PROD001",
    {| name := "UltraGrip Pro Wireless Mouse";
       category := "Computer Accessories";
       price := "49.99";
       specifications := [("DPI", "16000");
                          ("Buttons", "8 programmable");
                          ("Battery", "70 hours");
                          ("Connectivity", "2.4GHz + Bluetooth");
                          ("Weight", "95g")];
       supplier_notes := "Premium gaming mouse with ergonomic design" |});
   ("PROD002",
    {| name := "EcoBlend Bamboo Coffee Mug";
       category := "Kitchen & Dining";
       price := "24.99";
       specifications := [("Material", "Bamboo fiber composite");
                          ("Capacity", "350ml");
                          ("Insulation", "Double-walled");
                          ("Microwave Safe", "No");
                          ("Dishwasher Safe", "Yes")];
       supplier_notes := "Sustainable, BPA-free travel mug" |})].

Definition get_product_catalog (product_id : str) : str :=
  match dict_lookup catalog product_id with
  | Some product =>
      lit HW3.newline ++
      lit "Product: " ++ lit (name product) ++ lit HW3.newline ++
      lit "Category: " ++ lit (category product) ++ lit HW3.newline ++
      lit "Price: $" ++ lit (price product) ++ lit HW3.newline ++
      lit "Specifications: " ++
        join (lit ", ")
             (map (λ kv, lit (fst kv) ++ lit ": " ++ lit (snd kv))
                  (specifications product)) ++ lit HW3.newline ++
      lit "Notes: " ++ lit (supplier_notes product) ++ lit HW3.newline
  | None => lit "Error: Product " ++ product_id ++ lit " not found"
  end.

(** *** get_brand_guidelines *)

Definition guidelines : list (string * string) :=
  [("Computer Accessories",
    HW3.newline +:+
    "Brand Tone: Professional, tech-savvy, performance-focused" +:+ HW3.newline +:+
    "Forbidden Claims: unbreakable, fastest in the world, medical grade" +:+ HW3.newline +:+
    "Required Disclaimers: Performance may vary by system" +:+ HW3.newline +:+
    "Compliance: No health claims, Must specify wireless frequency" +:+ HW3.newline);
   ("Kitchen & Dining",
    HW3.newline +:+
    "Brand Tone: Warm, eco-conscious, lifestyle-oriented" +:+ HW3.newline +:+
    "Forbidden Claims: 100% eco-friendly, zero waste, miracle product" +:+ HW3.newline +:+
    "Required Disclaimers: Hand wash recommended for longevity" +:+ HW3.newline +:+
    "Compliance: Must mention care instructions, Material sourcing transparency"
      +:+ HW3.newline)].

Definition get_brand_guidelines (category : str) : str :=
  lit (default "Brand Tone: Friendly and informative" (dict_lookup guidelines category)).

(** *** check_platform_constraints *)

Record Rule : Type := { rule_max : Z; rule_min : Z }.

Definition rules : list (string * Rule) :=
  [("product_title", {| rule_max := 200; rule_min := 10 |});
   ("short_description", {| rule_max := 500; rule_min := 50 |});
   ("meta_description", {| rule_max := 160; rule_min := 50 |})].

Definition check_platform_constraints (content_type content : str) : str :=
  let rule := default {| rule_max := 1000; rule_min := 10 |}
                      (dict_lookup rules content_type) in
  let length := Z.of_nat (length content) in
  if Z.leb (rule_min rule) length && Z.leb length (rule_max rule)
  then lit ("Valid length (" +:+ pretty length +:+ " chars, limit: " +:+
            pretty (rule_max rule) +:+ ")")
  else lit ("Invalid length (" +:+ pretty length +:+ " chars, allowed: " +:+
            pretty (rule_min rule) +:+ "-" +:+ pretty (rule_max rule) +:+ ")").

Section Lowercase.
(** [str.lower], of the standard library. *)
Context (lower : str → str).

(** *** validate_seo_keywords *)

Definition validate_seo_keywords (content : str) (keywords : list str) : str :=
  let content_lower := lower content in
  let results :=
    foldl (λ results keyword,
             let count := count (lower keyword) content_lower in
             let status := if Z.leb 1 count && Z.leb count 5
                           then "Good" else "Needs adjustment" in
             results ++ [keyword ++ lit ": " ++ lit (pretty count) ++
                         lit " occurrences - " ++ lit status])
          [] keywords in
  join (lit HW3.newline) results.

(** *** check_brand_compliance *)

Definition check_brand_compliance (content : str) (forbidden_terms : list str) : str :=
  let content_lower := lower content in
  let violations :=
    foldl (λ violations term,
             if contains (lower term) content_lower
             then violations ++ [lit "Forbidden term detected: '" ++ term ++ lit "'"]
             else violations)
          [] forbidden_terms in
  match violations with
  | _ :: _ => join (lit HW3.newline) violations
  | [] => lit "No brand violations detected"
  end.

(** *** verify_fact_consistency *)

Definition key_terms : list string :=
  ["dpi"; "battery"; "bamboo"; "capacity"; "wireless"; "sustainable"].

Definition verify_fact_consistency (brief content : str) : str :=
  let brief_lower := lower brief in
  let content_lower := lower content in
  let missing :=
    foldl (λ missing term,
             if contains (lit term) brief_lower && negb (contains (lit term) content_lower)
             then missing ++ [lit "Brief mentions '" ++ lit term ++
                              lit "' but content doesn't"]
             else missing)
          [] key_terms in
  match missing with
  | _ :: _ => join (lit HW3.newline) missing
  | [] => lit "Content consistent with brief"
  end.

End Lowercase.

(** [str.lower] on ASCII texts: the capital letters move to the small ones. *)
Definition ascii_lower (s : str) : str :=
  (λ c, if (65 <=? c)%N && (c <=? 90)%N then (c + 32)%N else c) <$> s.

End McpServer.

(** ** A [json] for the examples

    [dumps] writes a value the way [json.dumps] does with its default
    separators (texts without control or non-ASCII characters); [loads_among]
    reads back exactly the texts of a given finite vocabulary of values, and
    rejects every other text, with JSONDecodeError. *)
Module ExampleJson.

Definition dq : string := String (Ascii.ascii_of_nat 34) EmptyString.

Fixpoint escape (s : string) : string :=
  match s with
  | EmptyString => EmptyString
  | String c s' =>
      if (Ascii.nat_of_ascii c =? 34)%nat || (Ascii.nat_of_ascii c =? 92)%nat
      then String (Ascii.ascii_of_nat 92) (String c (escape s'))
      else String c (escape s')
  end.

Definition quoted (s : string) : string := dq +:+ escape s +:+ dq.

Fixpoint dumps (v : PyVal) : string :=
  match v with
  | PyNone => "null"
  | PyBool true => "true"
  | PyBool false => "false"
  | PyInt z => pretty z
  | PyFloat r => r
  | PyStr s => quoted s
  | PyList l => "[" +:+ String.concat ", " (List.map dumps l) +:+ "]"
  | PyDict items =>
      "{" +:+ String.concat ", "
                (List.map (λ kv, quoted (fst kv) +:+ ": " +:+ dumps (snd kv)) items)
          +:+ "}"
  end.

Definition loads_among (vocabulary : list PyVal) (text : string) : option PyVal :=
  List.find (λ v, String.eqb (dumps v) text) vocabulary.

Definition product_id_args (product_id : string) : PyVal :=
  PyDict [("product_id", PyStr product_id)].

Definition json : Json := {|
  json_loads := loads_among [product_id_args "101"; product_id_args "202";
                             product_id_args "303"; product_id_args "999";
                             PyDict []; PyList []];
  json_loads_error := λ _, JSONDecodeError;
  json_dumps := dumps
|}.

(** Arguments whose integer literal has 5000 digits, more than [json.loads]
    converts: on this text it raises ValueError, not JSONDecodeError. *)
Definition long_integer_args : string :=
  "{" +:+ quoted "product_id" +:+ ": " +:+
  String.string_of_list_ascii (replicate 5000 (Ascii.ascii_of_nat 49)) +:+ "}".

Definition json_with_digit_limit : Json := {|
  json_loads := λ text,
    if String.eqb text long_integer_args then None else json_loads (Json := json) text;
  json_loads_error := λ text,
    if String.eqb text long_integer_args then ValueError else JSONDecodeError;
  json_dumps := dumps
|}.

(** A conversation and responses of the kind the script of HW1 meets. *)
Definition prompt : list HW1.Message :=
  [HW1.ContentMessage HW1.system
     "You are an e-shop marketing copywriter. Write short promotional campaign texts.";
   HW1.ContentMessage HW1.user "Write a campaign text for product 202."].

Definition call_info : HW1.ToolCall :=
  {| HW1.tc_id := "call_1"; HW1.tc_name := "get_product_info";
     HW1.tc_arguments := dumps (product_id_args "202") |}.

Definition call_discount : HW1.ToolCall :=
  {| HW1.tc_id := "call_2"; HW1.tc_name := "get_discount";
     HW1.tc_arguments := dumps (product_id_args "202") |}.

(** A request for a tool that available_functions does not hold. *)
Definition call_price : HW1.ToolCall :=
  {| HW1.tc_id := "call_3"; HW1.tc_name := "get_price";
     HW1.tc_arguments := dumps (product_id_args "202") |}.

Definition asks (calls : list HW1.ToolCall) : HW1.ChatCompletionMessage :=
  {| HW1.content := None; HW1.tool_calls := Some calls |}.

Definition answer : HW1.ChatCompletionMessage :=
  {| HW1.content := Some "Noise Cancelling Headphones, now 20% off.";
     HW1.tool_calls := None |}.

End ExampleJson.

(** ** Vocabulary of the properties of the loop *)
Import HW1.

(** [ms] appended to the caller's list. *)
Definition add_messages (ms : list Message) (st : State) : State :=
  {| messages := messages st ++ ms; pending := pending st; requests := requests st |}.

(** The state right after a call of [create]. *)
Definition sent (st : State) : State :=
  {| messages := messages st;
     pending := tail (pending st);
     requests := requests st ++ [messages st] |}.

(** The values of [messages] at successive calls of [create], when the
    segments [segs] are appended between them. *)
Fixpoint snapshots (ms : list Message) (segs : list (list Message)) : list (list Message) :=
  match segs with
  | [] => []
  | seg :: segs' => ms :: snapshots (ms ++ seg) segs'
  end.

(** A segment made of exchanges only: each an assistant message carrying
    one request, directly followed by the tool message that bears the
    identifier and the tool name of that request. *)
Fixpoint paired (seg : list Message) : bool :=
  match seg with
  | [] => true
  | AssistantMessage [tc] :: ToolMessage tool_call_id name _ :: seg' =>
      String.eqb tool_call_id (tc_id tc) && String.eqb name (tc_name tc) && paired seg'
  | _ => false
  end.

(** Every tool message of [ms] comes after an assistant message that carries
    a request with its identifier; [seen] collects the identifiers requested
    so far. *)
Fixpoint answered (seen : list string) (ms : list Message) : bool :=
  match ms with
  | [] => true
  | ContentMessage _ _ :: ms' => answered seen ms'
  | AssistantMessage calls :: ms' => answered (map tc_id calls ++ seen) ms'
  | ToolMessage tool_call_id _ _ :: ms' =>
      bool_decide (tool_call_id ∈ seen) && answered seen ms'
  end.

(** An assistant message that carries a request for each of [ids]. *)
Definition carries_all (ids : list string) (m : Message) : bool :=
  match m with
  | AssistantMessage calls => forallb (λ id, bool_decide (id ∈ map tc_id calls)) ids
  | _ => false
  end.

Definition is_tool_message (m : Message) : bool :=
  match m with ToolMessage _ _ _ => true | _ => false end.

(** The rule check_platform_constraints applies to a content type. *)
Definition length_rule (content_type : list N) : McpServer.Rule :=
  default {| McpServer.rule_max := 1000; McpServer.rule_min := 10 |}
          (McpServer.dict_lookup McpServer.rules content_type).

(** A report of check_platform_constraints that accepts the length. *)
Definition accepted (report : list N) : bool :=
  McpServer.starts_with (McpServer.lit "Valid") report.

Section LoopVocabulary.
Context `{!Json}.

(** What the body of the inner loop does for one request, observed on a
    conversation without messages: the messages it appends, or the exception
    it raises. *)
Definition exchange (tc : ToolCall) : Outcome (list Message) :=
  match tool_call_body tc (initially [] []) with
  | (Return _, st) => Return (messages st)
  | (Raise e, _) => Raise e
  end.

Definition dispatches (tc : ToolCall) : bool :=
  match exchange tc with Return _ => true | Raise _ => false end.

Definition appended_by (tc : ToolCall) : list Message :=
  match exchange tc with Return ms => ms | Raise _ => [] end.

Definition exchanges (cs : list ToolCall) : list Message :=
  concat (map appended_by cs).

(** The requests before the first one that raises, and that exception. *)
Fixpoint served (cs : list ToolCall) : list ToolCall :=
  match cs with
  | [] => []
  | tc :: cs' => if dispatches tc then tc :: served cs' else []
  end.

Fixpoint failure (cs : list ToolCall) : option PyExn :=
  match cs with
  | [] => None
  | tc :: cs' => match exchange tc with Raise e => Some e | Return _ => failure cs' end
  end.

Definition requested (r : ChatCompletionMessage) : list ToolCall :=
  default [] (tool_calls r).

(** A response that asks for tools, all of which dispatch without raising. *)
Definition complete (r : ChatCompletionMessage) : bool :=
  negb (no_tool_calls r) && forallb dispatches (requested r).

Definition turn (r : ChatCompletionMessage) : list Message :=
  exchanges (requested r).

(** The state after the responses [rs] were received and served in full. *)
Definition advance (rs : list ChatCompletionMessage) (rest : list ChatCompletionMessage)
    (st : State) : State :=
  {| messages := messages st ++ concat (map turn rs);
     pending := rest;
     requests := requests st ++ snapshots (messages st) (map turn rs) |}.

End LoopVocabulary.

(** ** Properties of HW1/main.py *)

Section LoopProperties.
Context `{!Json}.

Lemma add_messages_nil st : add_messages [] st = st.
Proof. destruct st; unfold add_messages; simpl. by rewrite app_nil_r. Qed.

Lemma add_messages_app ms1 ms2 st :
  add_messages ms2 (add_messages ms1 st) = add_messages (ms1 ++ ms2) st.
Proof. unfold add_messages; simpl. by rewrite app_assoc. Qed.

(** The body of the inner loop either raises before it touches the list, or
    appends the messages of [exchange]. *)
Lemma tool_call_body_run tc st :
  tool_call_body tc st =
  match exchange tc with
  | Return ms => (Return (), add_messages ms st)
  | Raise e => (Raise e, st)
  end.
Proof.
  unfold exchange, tool_call_body, mbind, M_bind, lift, append, add_messages; simpl.
  destruct (json_loads (tc_arguments tc)) as [args|]; [|done].
  destruct (available_functions !! tc_name tc) as [f|]; [|done].
  destruct (call_kwargs f args) as [result|e]; [|done].
  simpl. by rewrite <- app_assoc.
Qed.

Lemma exchange_inv tc ms :
  exchange tc = Return ms →
  ∃ args f result,
    json_loads (tc_arguments tc) = Some args ∧
    available_functions !! tc_name tc = Some f ∧
    call_kwargs f args = Return result ∧
    ms = [assistant_message (tc_id tc) (tc_name tc) args;
          tool_message (tc_id tc) (tc_name tc) result].
Proof.
  unfold exchange, tool_call_body, mbind, M_bind, lift, append; simpl.
  destruct (json_loads (tc_arguments tc)) as [args|]; [|done].
  destruct (available_functions !! tc_name tc) as [f|]; [|done].
  destruct (call_kwargs f args) as [result|e] eqn:Hcall; [|done].
  simpl. intros [= <-]. by exists args, f, result.
Qed.

(** A request dispatches exactly when its arguments are JSON, its tool is in
    the registry and the call of the tool returns. *)
Lemma dispatches_iff tc :
  dispatches tc = true ↔
  ∃ args f result,
    json_loads (tc_arguments tc) = Some args ∧
    available_functions !! tc_name tc = Some f ∧
    call_kwargs f args = Return result.
Proof.
  unfold dispatches. split.
  - destruct (exchange tc) as [ms|] eqn:Hex; [|done]. intros _.
    apply exchange_inv in Hex as (args & f & result & ? & ? & ? & _).
    by exists args, f, result.
  - intros (args & f & result & Hargs & Hf & Hcall).
    unfold exchange, tool_call_body, mbind, M_bind, lift, append; simpl.
    by rewrite Hargs, Hf, Hcall.
Qed.

(** In particular a request for one of the two tools dispatches when its
    arguments are a JSON object of the one key product_id with a hashable
    value, as the schemas of [tools] ask. *)
Lemma dispatches_product_id tc product_id :
  tc_name tc = "get_product_info" ∨ tc_name tc = "get_discount" →
  json_loads (tc_arguments tc) = Some (PyDict [("product_id", product_id)]) →
  hashable product_id = true →
  dispatches tc = true.
Proof.
  intros Hname Hargs Hhash. apply dispatches_iff.
  exists (PyDict [("product_id", product_id)]).
  destruct Hname as [Hname|Hname]; rewrite Hname.
  - exists get_product_info. unfold get_product_info.
    destruct product_id; try done; by eexists.
  - exists get_discount. unfold get_discount.
    destruct product_id; try done; by eexists.
Qed.

Lemma for_each_run cs st :
  for_each tool_call_body cs st =
  (match failure cs with None => Return () | Some e => Raise e end,
   add_messages (exchanges (served cs)) st).
Proof.
  revert st. induction cs as [|tc cs IH]; intros st; simpl.
  - by rewrite add_messages_nil.
  - unfold mbind, M_bind at 1. rewrite tool_call_body_run.
    unfold dispatches. destruct (exchange tc) as [ms|e] eqn:Hex.
    + rewrite IH. unfold exchanges; simpl. unfold appended_by at 2. rewrite Hex.
      by rewrite add_messages_app.
    + by rewrite add_messages_nil.
Qed.

Lemma failure_None cs : failure cs = None ↔ forallb dispatches cs = true.
Proof.
  induction cs as [|tc cs IH]; simpl; [done|].
  unfold dispatches at 1. destruct (exchange tc); simpl; [done|]. split; done.
Qed.

Lemma served_all cs : forallb dispatches cs = true → served cs = cs.
Proof.
  induction cs as [|tc cs IH]; simpl; [done|].
  intros [-> Hcs]%andb_true_iff. by rewrite IH.
Qed.

Lemma iteration_run st :
  iteration st =
  match pending st with
  | [] => (Raise APIError, sent st)
  | msg :: _ =>
      if no_tool_calls msg then (Return (Some msg), sent st)
      else (match failure (requested msg) with
            | None => Return None
            | Some e => Raise e
            end,
            add_messages (exchanges (served (requested msg))) (sent st))
  end.
Proof.
  unfold iteration, mbind, M_bind, create. fold (sent st).
  destruct (pending st) as [|msg rest]; [done|].
  destruct (no_tool_calls msg); [done|].
  fold (requested msg). rewrite for_each_run.
  by destruct (failure (requested msg)).
Qed.

Lemma complete_inv r :
  complete r = true →
  no_tool_calls r = false ∧ failure (requested r) = None ∧
  served (requested r) = requested r.
Proof.
  unfold complete. intros [Hno Hall]%andb_true_iff.
  split; [by destruct (no_tool_calls r)|].
  split; [by apply failure_None | by apply served_all].
Qed.

(** One pass of the outer loop. *)
Lemma iterate_step n st :
  iterate (S n) st =
  match pending st with
  | [] => (Raise APIError, sent st)
  | msg :: _ =>
      if no_tool_calls msg then (Return msg, sent st)
      else match failure (requested msg) with
           | Some e => (Raise e, add_messages (exchanges (served (requested msg))) (sent st))
           | None => iterate n (add_messages (exchanges (requested msg)) (sent st))
           end
  end.
Proof.
  cbn [iterate]. unfold mbind, M_bind at 1. rewrite iteration_run.
  destruct (pending st) as [|msg rest]; [done|].
  destruct (no_tool_calls msg); [done|].
  destruct (failure (requested msg)) as [e|] eqn:Hfail; [done|].
  by rewrite served_all by by apply failure_None.
Qed.

(** Responses that are served in full each use up one iteration. *)
Lemma iterate_turns rs rest n st :
  forallb complete rs = true →
  pending st = rs ++ rest →
  iterate (length rs + n) st = iterate n (advance rs rest st).
Proof.
  revert st. induction rs as [|r rs IH]; intros st Hrs Hst.
  - simpl. f_equal. destruct st; unfold advance; simpl in *.
    by rewrite !app_nil_r, Hst.
  - simpl in Hrs. apply andb_true_iff in Hrs as [Hr Hrs].
    apply complete_inv in Hr as (Hno & Hfail & Hserved).
    change (length (r :: rs) + n)%nat with (S (length rs + n)).
    cbn [iterate]. unfold mbind, M_bind at 1.
    rewrite iteration_run, Hst. simpl. rewrite Hno, Hfail, Hserved.
    rewrite (IH _ Hrs); [|by simpl; rewrite Hst].
    f_equal. unfold advance, add_messages, sent, turn; simpl.
    by rewrite <- !app_assoc.
Qed.

Lemma iterate_converges rs final rest n st :
  forallb complete rs = true →
  no_tool_calls final = true →
  pending st = rs ++ final :: rest →
  (length rs < n)%nat →
  iterate n st = (Return final, sent (advance rs (final :: rest) st)).
Proof.
  intros Hrs Hfinal Hst Hn.
  replace n with (length rs + S (n - S (length rs)))%nat by lia.
  rewrite (iterate_turns rs (final :: rest)) by done.
  cbn [iterate]. unfold mbind, M_bind at 1. rewrite iteration_run. simpl.
  by rewrite Hfinal.
Qed.

Lemma iterate_exhausts rs rest st :
  forallb complete rs = true →
  pending st = rs ++ rest →
  iterate (length rs) st =
  (Raise (Exception "Max iterations reached without completion."), advance rs rest st).
Proof.
  intros Hrs Hst.
  replace (length rs) with (length rs + 0)%nat at 1 by lia.
  by rewrite (iterate_turns rs rest).
Qed.

Lemma iterate_fails rs bad rest e n st :
  forallb complete rs = true →
  no_tool_calls bad = false →
  failure (requested bad) = Some e →
  pending st = rs ++ bad :: rest →
  (length rs < n)%nat →
  iterate n st =
  (Raise e, add_messages (exchanges (served (requested bad)))
                         (sent (advance rs (bad :: rest) st))).
Proof.
  intros Hrs Hbad Hfail Hst Hn.
  replace n with (length rs + S (n - S (length rs)))%nat by lia.
  rewrite (iterate_turns rs (bad :: rest)) by done.
  cbn [iterate]. unfold mbind, M_bind at 1. rewrite iteration_run. simpl.
  by rewrite Hbad, Hfail.
Qed.

(** A run that returns a message has met a response without requests, after
    responses that were all served in full. *)
Lemma iterate_return_inv n st msg :
  (iterate n st).1 = Return msg →
  ∃ rs rest,
    pending st = rs ++ msg :: rest ∧ (length rs < n)%nat ∧
    forallb complete rs = true ∧ no_tool_calls msg = true.
Proof.
  revert st. induction n as [|n IH]; intros st; [done|].
  cbn [iterate]. unfold mbind, M_bind at 1. rewrite iteration_run.
  destruct (pending st) as [|r rest] eqn:Hst; [done|].
  destruct (no_tool_calls r) eqn:Hno.
  - simpl. intros [= ->]. exists [], rest. simpl. repeat split; [lia|done].
  - destruct (failure (requested r)) as [e|] eqn:Hfail; [done|].
    intros (rs & rest' & Hp & Hlen & Hrs & Hmsg)%IH.
    simpl in Hp. rewrite Hst in Hp. simpl in Hp.
    exists (r :: rs), rest'. simpl. rewrite Hp. repeat split; [lia| |done].
    rewrite Hrs, andb_true_r. unfold complete. rewrite Hno. simpl.
    by apply failure_None.
Qed.

(** *** The shape of every run *)

Lemma paired_exchanges cs : paired (exchanges cs) = true.
Proof.
  induction cs as [|tc cs IH]; [done|].
  unfold exchanges; simpl. unfold appended_by at 1.
  destruct (exchange tc) as [ms|e] eqn:Hex; [|done].
  apply exchange_inv in Hex as (args & f & result & _ & _ & _ & ->).
  simpl. by rewrite !String.eqb_refl.
Qed.

(** Whatever the client answers and however the run ends, the loop appends
    one segment of exchanges after each call of [create], and nothing else. *)
Lemma iterate_shape n st :
  ∃ segs,
    (length segs ≤ n)%nat ∧ (n ≠ 0%nat → segs ≠ []) ∧
    forallb paired segs = true ∧
    requests (iterate n st).2 = requests st ++ snapshots (messages st) segs ∧
    messages (iterate n st).2 = messages st ++ concat segs.
Proof.
  revert st. induction n as [|n IH]; intros st.
  - exists []. simpl. by rewrite !app_nil_r.
  - rewrite iterate_step.
    assert (Hone : ∀ (o : Outcome ChatCompletionMessage) seg,
      paired seg = true →
      ∃ segs, (length segs ≤ S n)%nat ∧ (S n ≠ 0%nat → segs ≠ []) ∧
        forallb paired segs = true ∧
        requests (o, add_messages seg (sent st)).2
          = requests st ++ snapshots (messages st) segs ∧
        messages (o, add_messages seg (sent st)).2 = messages st ++ concat segs).
    { intros o seg Hseg. exists [seg]. simpl.
      rewrite Hseg, app_nil_r. repeat split; [lia|done]. }
    destruct (pending st) as [|r rest] eqn:Hst.
    { rewrite <- (add_messages_nil (sent st)). by apply Hone. }
    destruct (no_tool_calls r).
    { rewrite <- (add_messages_nil (sent st)). by apply Hone. }
    destruct (failure (requested r)) as [e|]; [apply Hone, paired_exchanges|].
    set (st1 := add_messages _ (sent st)).
    destruct (IH st1) as (segs & Hlen & _ & Hpaired & Hreq & Hmsg).
    exists (exchanges (requested r) :: segs). simpl.
    rewrite paired_exchanges, Hpaired, Hreq, Hmsg. subst st1; simpl.
    rewrite <- !app_assoc. repeat split; [lia|done].
Qed.

Lemma length_snapshots ms segs : length (snapshots ms segs) = length segs.
Proof. revert ms. induction segs as [|seg segs IH]; intros ms; simpl; [done|]. by rewrite IH. Qed.

Lemma snapshots_head ms segs :
  (snapshots ms segs ++ [ms ++ concat segs]) !! 0%nat = Some ms.
Proof. destruct segs; simpl; [by rewrite app_nil_r | done]. Qed.

Lemma snapshots_step segs : ∀ ms k a b,
  snapshots ms segs !! k = Some a →
  (snapshots ms segs ++ [ms ++ concat segs]) !! S k = Some b →
  ∃ seg, segs !! k = Some seg ∧ b = a ++ seg.
Proof.
  induction segs as [|seg segs IH]; intros ms k a b; [done|].
  destruct k as [|k]; simpl.
  - intros [= <-] Hb. exists seg. split; [done|].
    rewrite app_assoc, snapshots_head in Hb. by injection Hb.
  - intros Ha Hb. rewrite app_assoc in Hb. by apply (IH (ms ++ seg)).
Qed.

Lemma answered_paired n : ∀ seg seen,
  (length seg ≤ n)%nat → paired seg = true → answered seen seg = true.
Proof.
  induction n as [|n IH]; intros seg seen Hlen.
  - by destruct seg; [|simpl in Hlen; lia].
  - destruct seg as [|[|[|tc []]|] [|[| |id name text] seg]]; try done.
    simpl in *. intros [[Hid _]%andb_true_iff Hseg]%andb_true_iff.
    apply String.eqb_eq in Hid as ->.
    rewrite bool_decide_eq_true_2 by set_solver.
    simpl. apply IH; [lia|done].
Qed.

Lemma answered_app_paired ms : ∀ seen seg,
  answered seen ms = true → paired seg = true → answered seen (ms ++ seg) = true.
Proof.
  induction ms as [|m ms IH]; intros seen seg Hms Hseg; simpl.
  - by eapply answered_paired.
  - destruct m as [role text|calls|id name text]; simpl in *.
    + by apply IH.
    + by apply IH.
    + apply andb_true_iff in Hms as [-> Hms]. simpl. by apply IH.
Qed.

Lemma answered_snapshots segs : ∀ ms,
  answered [] ms = true → forallb paired segs = true →
  Forall (λ a, answered [] a = true) (snapshots ms segs) ∧
  answered [] (ms ++ concat segs) = true.
Proof.
  induction segs as [|seg segs IH]; intros ms Hms Hsegs; simpl.
  - by rewrite app_nil_r.
  - simpl in Hsegs. apply andb_true_iff in Hsegs as [Hseg Hsegs].
    destruct (IH (ms ++ seg)) as [Hall Hlast]; [by apply answered_app_paired|done|].
    rewrite app_assoc. split; [by constructor|done].
Qed.

Lemma length_exchanges cs :
  forallb dispatches cs = true → length (exchanges cs) = (2 * length cs)%nat.
Proof.
  induction cs as [|tc cs IH]; [done|]. simpl.
  intros [Htc Hcs]%andb_true_iff. unfold exchanges in *; simpl.
  rewrite length_app, IH by done.
  unfold dispatches in Htc. unfold appended_by.
  destruct (exchange tc) as [ms|] eqn:Hex; [|done].
  apply exchange_inv in Hex as (? & ? & ? & _ & _ & _ & ->). simpl. lia.
Qed.

Lemma failure_app before cs :
  forallb dispatches before = true → failure (before ++ cs) = failure cs.
Proof.
  induction before as [|tc before IH]; [done|]. simpl.
  intros [Htc Hb]%andb_true_iff. unfold dispatches in Htc.
  destruct (exchange tc); [by apply IH | done].
Qed.

Lemma served_app before tc after :
  forallb dispatches before = true → dispatches tc = false →
  served (before ++ tc :: after) = before.
Proof.
  induction before as [|tc' before IH]; simpl.
  - by intros _ ->.
  - intros [-> Hb]%andb_true_iff Htc. by rewrite IH.
Qed.

Lemma paired_app n : ∀ a b,
  (length a ≤ n)%nat → paired a = true → paired b = true → paired (a ++ b) = true.
Proof.
  induction n as [|n IH]; intros a b Hlen.
  - by destruct a; [|simpl in Hlen; lia].
  - destruct a as [|[|[|tc []]|] [|[| |id name text] a]]; try done.
    simpl in *. intros [-> Ha]%andb_true_iff Hb. simpl. apply IH; [lia|done..].
Qed.

Lemma paired_concat segs : forallb paired segs = true → paired (concat segs) = true.
Proof.
  induction segs as [|seg segs IH]; [done|]. simpl.
  intros [Hseg Hsegs]%andb_true_iff. eapply paired_app; [done..|by apply IH].
Qed.

(** *** The claims about the loop *)

(** C1, for requests that dispatch. When the responses before the first one
    without ToolCallRequests all ask for tools that dispatch without raising,
    and that first one arrives within [max_iterations] calls,
    get_completion_loop returns exactly that response, the conversation
    holding the exchanges of the earlier responses; and a run returns a
    message in no other way. *)
Theorem C1_returns_first_answer init script final (max_iterations : Z) :
  (∀ rs rest,
     script = rs ++ final :: rest →
     forallb complete rs = true →
     no_tool_calls final = true →
     Z.of_nat (length rs) < max_iterations →
     get_completion_loop max_iterations (initially init script)
     = (Return final, sent (advance rs (final :: rest) (initially init script)))) ∧
  ((get_completion_loop max_iterations (initially init script)).1 = Return final →
   ∃ rs rest,
     script = rs ++ final :: rest ∧
     forallb complete rs = true ∧
     no_tool_calls final = true ∧
     Z.of_nat (length rs) < max_iterations).
Proof.
  unfold get_completion_loop. split.
  - intros rs rest -> Hrs Hfinal Hlen. apply iterate_converges; [done..|lia].
  - intros (rs & rest & Hp & Hlen & Hrs & Hfinal)%iterate_return_inv.
    exists rs, rest. simpl in Hp. repeat split; [done..|lia].
Qed.

(** C2, for requests that dispatch. When each of the first [max_iterations]
    responses asks for tools that all dispatch without raising,
    get_completion_loop calls the engine exactly [max_iterations] times,
    however many requests each response holds (every request adds two
    messages and no call), and then raises the exception of its last line. *)
Theorem C2_exhausts_after_max_iterations init rs rest (max_iterations : Z) :
  forallb complete rs = true →
  Z.of_nat (length rs) = max_iterations →
  let run := get_completion_loop max_iterations (initially init (rs ++ rest)) in
  run.1 = Raise (Exception "Max iterations reached without completion.") ∧
  Z.of_nat (length (requests run.2)) = max_iterations ∧
  pending run.2 = rest ∧
  messages run.2 = init ++ concat (map turn rs) ∧
  Forall (λ r, requested r ≠ [] ∧
               length (turn r) = (2 * length (requested r))%nat) rs.
Proof.
  intros Hrs Hlen run. subst run. unfold get_completion_loop.
  rewrite <- Hlen, Nat2Z.id, (iterate_exhausts rs rest) by done. simpl.
  rewrite length_snapshots, length_map. repeat split.
  apply Forall_forall. intros r Hr.
  assert (complete r = true) as [Hno Hall]%andb_true_iff.
  { eapply forallb_forall in Hrs; [done|]. by apply list_elem_of_In. }
  split; [|by apply length_exchanges].
  unfold no_tool_calls, requested in *. by destruct (tool_calls r) as [[|]|].
Qed.

(** C3, one assistant message per request. For a response whose
    ToolCallRequests all dispatch without raising, the loop appends, for each
    request in the order listed, an assistant message that carries that one
    request alone (its identifier, its tool name and its parsed arguments
    serialized again), directly followed by the tool message of that
    request. *)
Theorem C3_one_assistant_message_per_request st r rest :
  pending st = r :: rest →
  complete r = true →
  (iteration st).1 = Return None ∧
  messages (iteration st).2 = messages st ++ concat (map appended_by (requested r)) ∧
  Forall (λ tc, ∃ args f result,
            json_loads (tc_arguments tc) = Some args ∧
            available_functions !! tc_name tc = Some f ∧
            call_kwargs f args = Return result ∧
            appended_by tc =
              [AssistantMessage [{| tc_id := tc_id tc;
                                    tc_name := tc_name tc;
                                    tc_arguments := json_dumps args |}];
               ToolMessage (tc_id tc) (tc_name tc) (json_dumps result)])
         (requested r).
Proof.
  intros Hst Hr. pose proof Hr as [_ Hall]%andb_true_iff.
  apply complete_inv in Hr as (Hno & Hfail & Hserved).
  rewrite iteration_run, Hst, Hno, Hfail, Hserved. simpl. repeat split.
  apply Forall_forall. intros tc Htc.
  assert (dispatches tc = true) as Hd.
  { eapply forallb_forall in Hall; [done|]. by apply list_elem_of_In. }
  unfold dispatches in Hd. unfold appended_by.
  destruct (exchange tc) as [ms|] eqn:Hex; [|done].
  apply exchange_inv in Hex as (args & f & result & ? & ? & ? & ->).
  by exists args, f, result.
Qed.

(** C4, the exception of an unknown tool. A ToolCallRequest whose tool name
    is absent from available_functions makes get_completion_loop raise:
    KeyError for that name when json.loads returns a value for its arguments,
    and otherwise the exception json.loads raises on them, which comes first
    (JSONDecodeError, ValueError or RecursionError). No message is appended
    for the request, nor for those listed after it. *)
Theorem C4_unknown_tool_raises init rs bad rest before tc after (max_iterations : Z) :
  forallb complete rs = true →
  tool_calls bad = Some (before ++ tc :: after) →
  forallb dispatches before = true →
  available_functions !! tc_name tc = None →
  Z.of_nat (length rs) < max_iterations →
  let run := get_completion_loop max_iterations (initially init (rs ++ bad :: rest)) in
  run.1 = Raise (match json_loads (tc_arguments tc) with
                 | Some _ => KeyError (tc_name tc)
                 | None => json_loads_error (tc_arguments tc)
                 end) ∧
  messages run.2 = init ++ concat (map turn rs) ++ exchanges before.
Proof.
  intros Hrs Hbad Hbefore Hname Hlen run. subst run. unfold get_completion_loop.
  set (e := match json_loads (tc_arguments tc) with
            | Some _ => KeyError (tc_name tc)
            | None => json_loads_error (tc_arguments tc) end).
  assert (Hex : exchange tc = Raise e).
  { unfold e, exchange, tool_call_body, mbind, M_bind, lift; simpl.
    destruct (json_loads (tc_arguments tc)); [|done]. by rewrite Hname. }
  assert (Hreq : requested bad = before ++ tc :: after).
  { unfold requested. by rewrite Hbad. }
  rewrite (iterate_fails rs bad rest e); [| done | | | done | lia].
  - rewrite Hreq, served_app; [|done|]. 2: by unfold dispatches; rewrite Hex.
    simpl. by rewrite <- app_assoc.
  - unfold no_tool_calls. rewrite Hbad. by destruct before.
  - rewrite Hreq, failure_app by done. simpl. by rewrite Hex.
Qed.

(** C9. When get_completion_loop returns, the caller's list is the one sent
    in the last call of the engine: the iteration that converges appends
    nothing, all that was ever appended are exchanges of earlier responses,
    and when the first response already carries no ToolCallRequests the list
    is as it was passed in. *)
Theorem C9_converging_iteration_appends_nothing init script (max_iterations : Z) msg :
  let run := get_completion_loop max_iterations (initially init script) in
  run.1 = Return msg →
  last (requests run.2) = Some (messages run.2) ∧
  (∃ appended, messages run.2 = init ++ appended ∧ paired appended = true) ∧
  (∀ first rest, script = first :: rest → no_tool_calls first = true →
                 msg = first ∧ messages run.2 = init).
Proof.
  intros run Hrun. subst run. unfold get_completion_loop in *.
  destruct (iterate_return_inv _ _ _ Hrun) as (rs & rest & Hp & Hlen & Hrs & Hmsg).
  simpl in Hp. subst script.
  rewrite (iterate_converges rs msg rest) by done.
  simpl. split; [by rewrite last_snoc|]. split.
  - exists (concat (map turn rs)). split; [done|]. apply paired_concat.
    clear. induction rs as [|r rs IH]; [done|]. simpl.
    unfold turn at 1. by rewrite paired_exchanges.
  - intros first rest' Heq Hfirst. destruct rs as [|r rs]; simpl in *.
    + injection Heq as -> ->. by rewrite app_nil_r.
    + injection Heq as Hr0 _. apply andb_true_iff in Hrs as [Hr _].
      apply complete_inv in Hr as [Hno _]. congruence.
Qed.

(** [answered] decides the invariant of the data model. *)
Lemma answered_spec ms : ∀ seen,
  answered seen ms = true ↔
  ∀ i tool_call_id name text,
    ms !! i = Some (ToolMessage tool_call_id name text) →
    tool_call_id ∈ seen ∨
    ∃ j calls tc, (j < i)%nat ∧ ms !! j = Some (AssistantMessage calls) ∧
                  tc ∈ calls ∧ tc_id tc = tool_call_id.
Proof.
  induction ms as [|m ms IH]; intros seen; [done|].
  destruct m as [role text0|calls0|id0 name0 text0]; simpl.
  - rewrite IH. split.
    + intros Hms [|i] id name text Hi; [done|].
      destruct (Hms i id name text Hi) as [?|(j & calls & tc & ? & ? & ?)]; [by left|].
      right. exists (S j), calls, tc. split; [lia|done].
    + intros Hms i id name text Hi.
      destruct (Hms (S i) id name text Hi) as [?|(j & calls & tc & ? & Hj & ?)]; [by left|].
      destruct j as [|j]; [done|]. right. exists j, calls, tc. split; [lia|done].
  - rewrite IH. split.
    + intros Hms [|i] id name text Hi; [done|].
      destruct (Hms i id name text Hi) as [Hin|(j & calls & tc & ? & ? & ?)].
      * apply elem_of_app in Hin as [Hin|?]; [|by left].
        apply list_elem_of_fmap in Hin as (tc & -> & Htc).
        right. exists 0%nat, calls0, tc. split; [lia|done].
      * right. exists (S j), calls, tc. split; [lia|done].
    + intros Hms i id name text Hi.
      destruct (Hms (S i) id name text Hi) as [?|(j & calls & tc & ? & Hj & Htc & Hid)].
      * left. apply elem_of_app. by right.
      * destruct j as [|j].
        -- injection Hj as ->. left. apply elem_of_app. left.
           apply list_elem_of_fmap. by exists tc.
        -- right. exists j, calls, tc. split; [lia|done].
  - rewrite andb_true_iff, bool_decide_eq_true, IH. split.
    + intros [Hid Hms] [|i] id name text Hi.
      * injection Hi as -> _ _. by left.
      * destruct (Hms i id name text Hi) as [?|(j & calls & tc & ? & ? & ?)]; [by left|].
        right. exists (S j), calls, tc. split; [lia|done].
    + intros Hms. split.
      * destruct (Hms 0%nat id0 name0 text0 eq_refl) as [?|(j & ? & ? & ? & _)]; [done|lia].
      * intros i id name text Hi.
        destruct (Hms (S i) id name text Hi) as [?|(j & calls & tc & ? & Hj & ?)]; [by left|].
        destruct j as [|j]; [done|]. right. exists j, calls, tc. split; [lia|done].
Qed.

(** C5. In every run the list only grows at its end: it starts as the
    caller's list, the value sent in each call of the engine extends the one
    sent before (and the final list extends the last one sent) by a segment
    of exchanges, in which every tool message directly follows the assistant
    message carrying its request. Hence, when every tool message of the
    caller's list comes after an assistant message with its identifier, the
    same holds of every list sent to the engine and of the final list. *)
Theorem C5_append_only_and_answered init script (max_iterations : Z) :
  let st' := (get_completion_loop max_iterations (initially init script)).2 in
  init `prefix_of` messages st' ∧
  (requests st' ++ [messages st']) !! 0%nat = Some init ∧
  (∀ k a b,
     requests st' !! k = Some a →
     (requests st' ++ [messages st']) !! S k = Some b →
     ∃ seg, b = a ++ seg ∧ paired seg = true ∧ (length a ≤ length b)%nat) ∧
  (answered [] init = true →
   answered [] (messages st') = true ∧
   Forall (λ a, answered [] a = true) (requests st')).
Proof.
  intros st'. subst st'. unfold get_completion_loop.
  destruct (iterate_shape (Z.to_nat max_iterations) (initially init script))
    as (segs & _ & _ & Hpaired & Hreq & Hmsg).
  simpl in Hreq, Hmsg. rewrite Hreq, Hmsg. repeat split.
  - by exists (concat segs).
  - apply snapshots_head.
  - intros k a b Ha Hb.
    destruct (snapshots_step _ _ _ _ _ Ha Hb) as (seg & Hseg & ->).
    exists seg. repeat split; [|rewrite length_app; lia].
    eapply forallb_forall in Hpaired; [done|].
    apply list_elem_of_In. by eapply list_elem_of_lookup_2.
  - by apply answered_snapshots.
  - by apply answered_snapshots.
Qed.

(** The list sent in the call number [k] holds the exchanges of the [k]
    responses before it, which were all served in full. *)
Lemma iterate_requests n : ∀ st k a,
  requests (iterate n st).2 !! (length (requests st) + k)%nat = Some a →
  forallb complete (take k (pending st)) = true ∧
  a = messages st ++ concat (map turn (take k (pending st))).
Proof.
  induction n as [|n IH]; intros st k a.
  { simpl. by rewrite lookup_ge_None_2 by lia. }
  assert (Hlast : ∀ seg,
    requests (add_messages seg (sent st)) !! (length (requests st) + k)%nat = Some a →
    forallb complete (take k (pending st)) = true ∧
    a = messages st ++ concat (map turn (take k (pending st)))).
  { intros seg. simpl. rewrite lookup_app_r by lia.
    replace (length (requests st) + k - length (requests st))%nat with k by lia.
    destruct k as [|k]; [|by destruct k]. simpl. intros [= <-].
    by rewrite app_nil_r. }
  rewrite iterate_step. destruct (pending st) as [|r rest] eqn:Hst.
  { rewrite <- (add_messages_nil (sent st)). apply Hlast. }
  destruct (no_tool_calls r) eqn:Hno.
  { rewrite <- (add_messages_nil (sent st)). apply Hlast. }
  destruct (failure (requested r)) as [e|] eqn:Hfail.
  { apply Hlast. }
  set (st1 := add_messages _ (sent st)).
  destruct k as [|k].
  - destruct (iterate_shape n st1) as (segs & _ & _ & _ & Hreq & _).
    rewrite Hreq. subst st1. simpl.
    rewrite <- app_assoc, lookup_app_r by lia.
    replace (length (requests st) + 0 - length (requests st))%nat with 0%nat by lia.
    simpl. intros [= <-]. by rewrite app_nil_r.
  - replace (length (requests st) + S k)%nat with (length (requests st1) + k)%nat
      by (subst st1; simpl; rewrite length_app; simpl; lia).
    intros [Hk ->]%IH. subst st1. simpl in *. rewrite Hst in *. simpl in *.
    rewrite Hk, andb_true_r, <- app_assoc. split; [|done].
    unfold complete. rewrite Hno. simpl. by apply failure_None.
Qed.

(** C6, for requests that dispatch. Every list sent to the engine holds the
    exchanges of all the responses before that call, each served in full:
    progress through only part of a response is never sent. For a response of two
    ToolCallRequests that both dispatch without raising, the next call of
    the engine is sent the earlier list extended by the assistant and tool
    messages of the first request and then those of the second: two tool
    messages, in the order of the requests. *)
Theorem C6_two_requests_two_results init script (max_iterations : Z) :
  let st' := (get_completion_loop max_iterations (initially init script)).2 in
  (∀ k a,
     requests st' !! k = Some a →
     forallb complete (take k script) = true ∧
     a = init ++ concat (map turn (take k script))) ∧
  (∀ k r tc1 tc2,
     script !! k = Some r →
     tool_calls r = Some [tc1; tc2] →
     forallb complete (take k script) = true →
     dispatches tc1 = true →
     dispatches tc2 = true →
     Z.of_nat k + 1 < max_iterations →
     ∃ args1 f1 result1 args2 f2 result2,
       (json_loads (tc_arguments tc1) = Some args1 ∧
        available_functions !! tc_name tc1 = Some f1 ∧
        call_kwargs f1 args1 = Return result1) ∧
       (json_loads (tc_arguments tc2) = Some args2 ∧
        available_functions !! tc_name tc2 = Some f2 ∧
        call_kwargs f2 args2 = Return result2) ∧
       requests st' !! S k =
         Some (init ++ concat (map turn (take k script)) ++
               [assistant_message (tc_id tc1) (tc_name tc1) args1;
                tool_message (tc_id tc1) (tc_name tc1) result1;
                assistant_message (tc_id tc2) (tc_name tc2) args2;
                tool_message (tc_id tc2) (tc_name tc2) result2])).
Proof.
  intros st'. subst st'. unfold get_completion_loop. split.
  - intros k a Ha.
    by apply (iterate_requests (Z.to_nat max_iterations) (initially init script) k a).
  - intros k r tc1 tc2 Hk Hcalls Hrs Htc1 Htc2 Hlen.
    unfold dispatches in Htc1, Htc2.
    destruct (exchange tc1) as [ms1|] eqn:Hex1; [|done].
    destruct (exchange tc2) as [ms2|] eqn:Hex2; [|done].
    destruct (exchange_inv _ _ Hex1) as (args1 & f1 & result1 & ? & ? & ? & ->).
    destruct (exchange_inv _ _ Hex2) as (args2 & f2 & result2 & ? & ? & ? & ->).
    exists args1, f1, result1, args2, f2, result2. do 2 (split; [done|]).
    pose proof (lookup_lt_Some _ _ _ Hk) as Hlt.
    assert (Hturn : turn r = [assistant_message (tc_id tc1) (tc_name tc1) args1;
                              tool_message (tc_id tc1) (tc_name tc1) result1;
                              assistant_message (tc_id tc2) (tc_name tc2) args2;
                              tool_message (tc_id tc2) (tc_name tc2) result2]).
    { unfold turn, requested, exchanges, appended_by. rewrite Hcalls. simpl.
      by rewrite Hex1, Hex2. }
    assert (Hr : complete r = true).
    { unfold complete, no_tool_calls, requested, dispatches. rewrite Hcalls. simpl.
      by rewrite Hex1, Hex2. }
    set (rs := take k script ++ [r]).
    assert (Hscript : script = rs ++ drop (S k) script).
    { subst rs. rewrite <- app_assoc. symmetry. by apply take_drop_middle. }
    assert (Hcomplete : forallb complete rs = true).
    { subst rs. rewrite forallb_app, Hrs. simpl. by rewrite Hr. }
    assert (Hrslen : length rs = S k).
    { subst rs. rewrite length_app, length_take. simpl. lia. }
    replace (Z.to_nat max_iterations)
      with (length rs + S (Z.to_nat max_iterations - S (length rs)))%nat by lia.
    rewrite (iterate_turns rs (drop (S k) script)); [|done|by simpl].
    destruct (iterate_shape (S (Z.to_nat max_iterations - S (length rs)))
                (advance rs (drop (S k) script) (initially init script)))
      as (segs & _ & Hne & _ & Hreq & _).
    rewrite Hreq. simpl. destruct segs as [|seg segs]; [by destruct Hne|].
    simpl. rewrite lookup_app_r; rewrite length_snapshots, length_map, Hrslen; [|lia].
    replace (S k - S k)%nat with 0%nat by lia. simpl.
    subst rs. rewrite map_app, concat_app. simpl. by rewrite Hturn, app_nil_r.
Qed.

End LoopProperties.

(** *** The two tools *)

Lemma MOCK_DB_truthy product_id record :
  MOCK_DB !! product_id = Some record → truthy record = true.
Proof.
  unfold MOCK_DB. intros Hrecord.
  repeat (apply lookup_insert_Some in Hrecord as [[_ <-]|[_ Hrecord]]; [done|]).
  by rewrite lookup_empty in Hrecord.
Qed.

(** C7. get_product_info returns the stored record for an identifier of the
    table (the Bluetooth Speaker record for "101"), and returns the payload
    with the key "error", without raising, for every identifier absent from
    the table ("999" among them): every string, and every other hashable value. *)
Theorem C7_get_product_info :
  get_product_info (PyStr "101")
  = Return (PyDict [("name", PyStr "Bluetooth Speaker");
                    ("description", PyStr "Portable speaker with deep bass");
                    ("price", PyFloat "59.99")]) ∧
  (∀ product_id record,
     MOCK_DB !! product_id = Some record →
     get_product_info (PyStr product_id) = Return record) ∧
  (∀ product_id,
     hashable product_id = true →
     (∀ s, product_id = PyStr s → MOCK_DB !! s = None) →
     get_product_info product_id = Return (PyDict [("error", PyStr "Product not found")])) ∧
  get_product_info (PyStr "999") = Return (PyDict [("error", PyStr "Product not found")]).
Proof.
  split; [done|]. split; [|split; [|done]].
  - intros product_id record Hrecord. unfold get_product_info. simpl.
    by rewrite Hrecord, (MOCK_DB_truthy _ _ Hrecord).
  - intros product_id Hhash Habsent. unfold get_product_info.
    destruct product_id; try done. simpl. by rewrite Habsent.
Qed.

(** C8. For every identifier absent from the discount table, get_discount
    returns the payload with discount_percentage 0 and no error key: the
    payload it would build for a stored discount of 0. *)
Theorem C8_get_discount_unknown_is_zero :
  (∀ product_id,
     hashable product_id = true →
     (∀ s, product_id = PyStr s → MOCK_DISCOUNTS !! s = None) →
     get_discount product_id = Return (PyDict [("discount_percentage", PyInt 0)])) ∧
  (∀ product_id discount,
     MOCK_DISCOUNTS !! product_id = Some discount →
     get_discount (PyStr product_id)
     = Return (PyDict [("discount_percentage", PyInt discount)])) ∧
  get_discount (PyStr "999") = Return (PyDict [("discount_percentage", PyInt 0)]).
Proof.
  split; [|split; [|done]].
  - intros product_id Hhash Habsent. unfold get_discount.
    destruct product_id; try done. simpl. by rewrite Habsent.
  - intros product_id discount Hd. unfold get_discount. simpl. by rewrite Hd.
Qed.

(** ** Properties of HW3/mcp-server.py *)

Section ReadabilityProperties.
Context {Char : Type} (isspace : Char → bool).

Lemma split_from_whitespace (s : list Char) :
  forallb isspace s = true → HW3.split_from isspace [] s = [].
Proof.
  induction s as [|c s IH]; [done|]. simpl.
  intros [-> Hs]%andb_true_iff. by apply IH.
Qed.

(** C10. analyze_readability returns a report for every text: the divisor of
    the average, max(word_count, 1), is at least 1, so the division never
    raises ZeroDivisionError. For the empty text and for a text of
    whitespace only the report counts 0 words. *)
Theorem C10_analyze_readability_total (content : list Char) :
  let word_count := Z.of_nat (length (HW3.split isspace content)) in
  (1 ≤ Z.max word_count 1)%Z ∧
  (∃ avg_word_length,
     HW3.truediv (HW3.sum_len (HW3.split isspace content)) (Z.max word_count 1)
     = Return avg_word_length) ∧
  (∃ report, HW3.analyze_readability isspace content = Return report) ∧
  (forallb isspace content = true →
   HW3.analyze_readability isspace content
   = Return (HW3.newline +:+ "Word Count: 0" +:+ HW3.newline +:+
             "Reading Level: 8th grade" +:+ HW3.newline +:+
             "Clarity: Good" +:+ HW3.newline)).
Proof.
  intros word_count.
  assert (Hdiv : ∃ avg,
    HW3.truediv (HW3.sum_len (HW3.split isspace content)) (Z.max word_count 1)
    = Return avg).
  { unfold HW3.truediv. destruct (Z.eqb_spec (Z.max word_count 1) 0) as [Hz|_]; [lia|].
    by eexists. }
  split; [lia|]. split; [done|]. split.
  - destruct Hdiv as [avg Havg]. unfold HW3.analyze_readability.
    fold word_count. rewrite Havg. by eexists.
  - intros Hws. unfold HW3.analyze_readability, HW3.split.
    by rewrite split_from_whitespace.
Qed.

End ReadabilityProperties.

(** ** The claims on concrete runs *)

Section Runs.
Import ExampleJson.
#[local] Existing Instance json.

Lemma C1_returns_first_answer_witness :
  let script := [asks [call_info; call_discount]; answer] in
  get_completion_loop 10 (initially prompt script)
  = (Return answer, sent (advance [asks [call_info; call_discount]] [answer]
                                  (initially prompt script))).
Proof.
  intros script.
  apply (proj1 (C1_returns_first_answer prompt script answer 10)
               [asks [call_info; call_discount]] []).
  - reflexivity.
  - vm_compute. reflexivity.
  - reflexivity.
  - simpl. lia.
Defined.

(** The first response asks for a tool outside the registry and the second
    carries no ToolCallRequests: the run raises instead of returning it. *)
Lemma C1_counterexample :
  let script := [asks [call_price]; answer] in
  script !! 1%nat = Some answer ∧
  no_tool_calls answer = true ∧
  no_tool_calls (asks [call_price]) = false ∧
  (get_completion_loop 10 (initially prompt script)).1 = Raise (KeyError "get_price") ∧
  (get_completion_loop 10 (initially prompt script)).1 ≠ Return answer.
Proof. vm_compute. repeat split. discriminate. Qed.

Lemma C2_exhausts_after_max_iterations_witness :
  let rs := [asks [call_info; call_discount]; asks [call_info]] in
  let run := get_completion_loop 2 (initially prompt (rs ++ [answer])) in
  run.1 = Raise (Exception "Max iterations reached without completion.") ∧
  Z.of_nat (length (requests run.2)) = 2 ∧
  pending run.2 = [answer] ∧
  messages run.2 = prompt ++ concat (map turn rs) ∧
  Forall (λ r, requested r ≠ [] ∧
               length (turn r) = (2 * length (requested r))%nat) rs.
Proof.
  intros rs.
  apply (C2_exhausts_after_max_iterations prompt rs [answer] 2).
  - vm_compute. reflexivity.
  - reflexivity.
Defined.

(** Both responses carry a ToolCallRequest, the first for a tool outside the
    registry: the engine is called once, not twice, and the exception is the
    KeyError. *)
Lemma C2_counterexample :
  let script := [asks [call_price]; asks [call_info]] in
  let run := get_completion_loop 2 (initially prompt script) in
  forallb (λ r, negb (no_tool_calls r)) script = true ∧
  run.1 = Raise (KeyError "get_price") ∧
  run.1 ≠ Raise (Exception "Max iterations reached without completion.") ∧
  length (requests run.2) = 1%nat.
Proof. vm_compute. repeat split. discriminate. Qed.

Lemma C3_one_assistant_message_per_request_witness :
  let r := asks [call_info; call_discount] in
  let st := initially prompt [r; answer] in
  (iteration st).1 = Return None ∧
  messages (iteration st).2 = messages st ++ concat (map appended_by (requested r)) ∧
  Forall (λ tc, ∃ args f result,
            json_loads (tc_arguments tc) = Some args ∧
            available_functions !! tc_name tc = Some f ∧
            call_kwargs f args = Return result ∧
            appended_by tc =
              [AssistantMessage [{| tc_id := tc_id tc;
                                    tc_name := tc_name tc;
                                    tc_arguments := json_dumps args |}];
               ToolMessage (tc_id tc) (tc_name tc) (json_dumps result)])
         (requested r).
Proof.
  intros r st.
  apply (C3_one_assistant_message_per_request st r [answer]).
  - reflexivity.
  - vm_compute. reflexivity.
Defined.

(** One response with two requests: the list afterwards holds two assistant
    messages of one request each, the first tool message between them, and no
    assistant message that carries both requests. *)
Lemma C3_counterexample :
  let run := get_completion_loop 10
               (initially prompt [asks [call_info; call_discount]; answer]) in
  drop (length prompt) (messages run.2)
  = [AssistantMessage [call_info];
     ToolMessage "call_1" "get_product_info"
       (dumps (PyDict [("name", PyStr "Noise Cancelling Headphones");
                       ("description", PyStr "High fidelity wireless ANC headphones");
                       ("price", PyFloat "129.99")]));
     AssistantMessage [call_discount];
     ToolMessage "call_2" "get_discount"
       (dumps (PyDict [("discount_percentage", PyInt 20)]))] ∧
  existsb (carries_all ["call_1"; "call_2"]) (messages run.2) = false.
Proof. vm_compute. split; reflexivity. Qed.

Lemma C4_unknown_tool_raises_witness :
  let bad := asks [call_discount; call_price; call_info] in
  let run := get_completion_loop 10 (initially prompt ([asks [call_info]] ++ bad :: [answer])) in
  run.1 = Raise (match json_loads (tc_arguments call_price) with
                 | Some _ => KeyError (tc_name call_price)
                 | None => json_loads_error (tc_arguments call_price)
                 end) ∧
  messages run.2 = prompt ++ concat (map turn [asks [call_info]]) ++ exchanges [call_discount].
Proof.
  intros bad.
  apply (C4_unknown_tool_raises prompt [asks [call_info]] bad [answer]
           [call_discount] call_price [call_info] 10).
  - vm_compute. reflexivity.
  - reflexivity.
  - vm_compute. reflexivity.
  - vm_compute. reflexivity.
  - simpl. lia.
Defined.

(** A request for the tool get_price: no tool message is produced and the
    KeyError leaves get_completion_loop. *)
Lemma C4_counterexample :
  let run := get_completion_loop 10 (initially prompt [asks [call_price]; answer]) in
  available_functions !! tc_name call_price = None ∧
  run.1 = Raise (KeyError "get_price") ∧
  filter is_tool_message (messages run.2) = [] ∧
  messages run.2 = prompt.
Proof. vm_compute. repeat split. Qed.

Lemma C5_append_only_and_answered_witness :
  let st' := (get_completion_loop 10
                (initially prompt [asks [call_info; call_discount]; answer])).2 in
  answered [] prompt = true ∧
  answered [] (messages st') = true ∧
  Forall (λ a, answered [] a = true) (requests st').
Proof.
  intros st'. split; [reflexivity|].
  apply (C5_append_only_and_answered prompt [asks [call_info; call_discount]; answer] 10).
  reflexivity.
Defined.

Lemma C6_two_requests_two_results_witness :
  let script := [asks [call_info; call_discount]; answer] in
  let st' := (get_completion_loop 10 (initially prompt script)).2 in
  ∃ args1 f1 result1 args2 f2 result2,
    (json_loads (tc_arguments call_info) = Some args1 ∧
     available_functions !! tc_name call_info = Some f1 ∧
     call_kwargs f1 args1 = Return result1) ∧
    (json_loads (tc_arguments call_discount) = Some args2 ∧
     available_functions !! tc_name call_discount = Some f2 ∧
     call_kwargs f2 args2 = Return result2) ∧
    requests st' !! 1%nat =
      Some (prompt ++ concat (map turn (take 0 script)) ++
            [assistant_message "call_1" "get_product_info" args1;
             tool_message "call_1" "get_product_info" result1;
             assistant_message "call_2" "get_discount" args2;
             tool_message "call_2" "get_discount" result2]).
Proof.
  intros script st'.
  apply (proj2 (C6_two_requests_two_results prompt script 10)
               0%nat (asks [call_info; call_discount]) call_info call_discount).
  - reflexivity.
  - reflexivity.
  - reflexivity.
  - vm_compute. reflexivity.
  - vm_compute. reflexivity.
  - simpl. lia.
Defined.

(** A response with two requests, the second for a tool outside the
    registry: one tool message is appended, not two. *)
Lemma C6_counterexample :
  let r := asks [call_info; call_price] in
  let run := get_completion_loop 10 (initially prompt [r; answer]) in
  length (requested r) = 2%nat ∧
  run.1 = Raise (KeyError "get_price") ∧
  length (filter is_tool_message (messages run.2)) = 1%nat.
Proof. vm_compute. repeat split. Qed.

Lemma C9_converging_iteration_appends_nothing_witness :
  let run := get_completion_loop 10 (initially prompt [answer]) in
  run.1 = Return answer ∧
  last (requests run.2) = Some (messages run.2) ∧
  (∃ appended, messages run.2 = prompt ++ appended ∧ paired appended = true) ∧
  (∀ first rest, [answer] = first :: rest → no_tool_calls first = true →
                 answer = first ∧ messages run.2 = prompt).
Proof.
  intros run. split; [reflexivity|].
  apply (C9_converging_iteration_appends_nothing prompt [answer] 10 answer).
  reflexivity.
Defined.

End Runs.

Lemma C7_get_product_info_witness :
  MOCK_DB !! "202" = Some (PyDict [("name", PyStr "Noise Cancelling Headphones");
                                   ("description", PyStr "High fidelity wireless ANC headphones");
                                   ("price", PyFloat "129.99")]) ∧
  get_product_info (PyStr "202")
  = Return (PyDict [("name", PyStr "Noise Cancelling Headphones");
                    ("description", PyStr "High fidelity wireless ANC headphones");
                    ("price", PyFloat "129.99")]) ∧
  get_product_info (PyInt 101) = Return (PyDict [("error", PyStr "Product not found")]).
Proof.
  split; [vm_compute; reflexivity|]. split.
  - apply (proj1 (proj2 C7_get_product_info) "202"). vm_compute. reflexivity.
  - apply (proj1 (proj2 (proj2 C7_get_product_info)) (PyInt 101)).
    + reflexivity.
    + intros s Hs. discriminate Hs.
Defined.

Lemma C8_get_discount_unknown_is_zero_witness :
  MOCK_DISCOUNTS !! "404" = None ∧
  get_discount (PyStr "404") = Return (PyDict [("discount_percentage", PyInt 0)]) ∧
  get_discount (PyStr "101") = Return (PyDict [("discount_percentage", PyInt 50)]).
Proof.
  split; [vm_compute; reflexivity|]. split.
  - apply (proj1 C8_get_discount_unknown_is_zero (PyStr "404")).
    + reflexivity.
    + intros s [= <-]. vm_compute. reflexivity.
  - apply (proj1 (proj2 C8_get_discount_unknown_is_zero) "101"). vm_compute. reflexivity.
Defined.

Lemma C10_analyze_readability_total_witness :
  let content := String.list_ascii_of_string "   " in
  forallb HW3.ascii_isspace content = true ∧
  HW3.analyze_readability HW3.ascii_isspace content
  = Return (HW3.newline +:+ "Word Count: 0" +:+ HW3.newline +:+
            "Reading Level: 8th grade" +:+ HW3.newline +:+
            "Clarity: Good" +:+ HW3.newline).
Proof.
  intros content. split; [reflexivity|].
  apply (C10_analyze_readability_total HW3.ascii_isspace content). reflexivity.
Defined.

(** ** Further properties of HW1/main.py *)

Section LoopBounds.
Context `{!Json}.

Lemma registry_inv name f :
  available_functions !! name = Some f →
  (name = "get_product_info" ∧ f = get_product_info) ∨
  (name = "get_discount" ∧ f = get_discount).
Proof.
  unfold available_functions. intros Hf.
  apply lookup_insert_Some in Hf as [[<- <-]|[_ Hf]]; [by left|].
  apply lookup_insert_Some in Hf as [[<- <-]|[_ Hf]]; [by right|].
  by rewrite lookup_empty in Hf.
Qed.

Lemma tool_raises_TypeError name f product_id e :
  available_functions !! name = Some f →
  f product_id = Raise e →
  e = TypeError ∧ hashable product_id = false.
Proof.
  intros [[_ ->]|[_ ->]]%registry_inv.
  - unfold get_product_info. destruct product_id; simpl; intros [= <-] || done; done.
  - unfold get_discount. destruct product_id; simpl; intros [= <-] || done; done.
Qed.

Lemma tool_returns_hashable name f product_id result :
  available_functions !! name = Some f →
  f product_id = Return result →
  hashable product_id = true.
Proof.
  intros [[_ ->]|[_ ->]]%registry_inv.
  - unfold get_product_info. by destruct product_id.
  - unfold get_discount. by destruct product_id.
Qed.

Lemma call_kwargs_inv f function_args :
  (∃ product_id, function_args = PyDict [("product_id", product_id)] ∧
                 call_kwargs f function_args = f product_id) ∨
  ((∀ product_id, function_args ≠ PyDict [("product_id", product_id)]) ∧
   call_kwargs f function_args = Raise TypeError).
Proof.
  destruct function_args as [| | | | |l|[|[k v] [|kv items]]];
    try (right; split; [intros ?; discriminate | done]).
  unfold call_kwargs. destruct (String.eqb_spec k "product_id") as [->|Hk].
  - left. by exists v.
  - right. split; [|done]. intros v' [= -> _]. done.
Qed.

Lemma exchange_raise_inv tc e :
  exchange tc = Raise e →
  (e = json_loads_error (tc_arguments tc) ∧ json_loads (tc_arguments tc) = None) ∨
  (e = KeyError (tc_name tc) ∧ available_functions !! tc_name tc = None) ∨
  (e = TypeError ∧ is_Some (available_functions !! tc_name tc)).
Proof.
  unfold exchange, tool_call_body, mbind, M_bind, lift, append; simpl.
  destruct (json_loads (tc_arguments tc)) as [args|]; [|intros [= <-]; by left].
  destruct (available_functions !! tc_name tc) as [f|] eqn:Hf;
    [|intros [= <-]; right; by left].
  destruct (call_kwargs f args) as [result|e'] eqn:Hcall; [done|].
  simpl. intros [= <-]. right. right. split; [|done].
  destruct (call_kwargs_inv f args) as [(v & _ & Hv)|[_ Hraise]].
  - rewrite Hv in Hcall. by eapply tool_raises_TypeError.
  - congruence.
Qed.

Lemma failure_inv cs e :
  failure cs = Some e → ∃ tc, tc ∈ cs ∧ exchange tc = Raise e.
Proof.
  induction cs as [|tc cs IH]; [done|]. simpl.
  destruct (exchange tc) as [ms|e'] eqn:Hex.
  - intros (tc' & Htc' & Hex')%IH. exists tc'. split; [by right|done].
  - intros [= <-]. exists tc. split; [by left|done].
Qed.

(** X1. Whatever the engine answers and however the run ends, the engine is
    called at most [max_iterations] times, and not at all when
    [max_iterations] is zero or negative. *)
Theorem X1_engine_calls_bounded init script (max_iterations : Z) :
  let run := get_completion_loop max_iterations (initially init script) in
  (Z.of_nat (length (requests run.2)) ≤ Z.max max_iterations 0)%Z.
Proof.
  intros run. subst run. unfold get_completion_loop.
  destruct (iterate_shape (Z.to_nat max_iterations) (initially init script))
    as (segs & Hlen & _ & _ & Hreq & _).
  rewrite Hreq. simpl. rewrite length_snapshots. lia.
Qed.

(** X2. With a budget of zero or less the loop raises the exception of its
    last line at once: no call of the engine, no response consumed, the
    caller's list untouched. *)
Theorem X2_no_budget_raises_at_once st (max_iterations : Z) :
  (max_iterations ≤ 0)%Z →
  get_completion_loop max_iterations st
  = (Raise (Exception "Max iterations reached without completion."), st).
Proof.
  intros Hmax. unfold get_completion_loop.
  by replace (Z.to_nat max_iterations) with 0%nat by lia.
Qed.

(** X3. The exceptions that can leave get_completion_loop: the one of its
    last line, a failure of the engine call, TypeError from the call of a
    registered tool, KeyError for a tool name outside the registry, and
    whatever json.loads raises on the arguments of a request of one of the
    responses (JSONDecodeError, ValueError, RecursionError). *)
Theorem X3_exceptions_of_the_loop init script (max_iterations : Z) e :
  (get_completion_loop max_iterations (initially init script)).1 = Raise e →
  e = Exception "Max iterations reached without completion." ∨
  e = APIError ∨
  e = TypeError ∨
  (∃ name, e = KeyError name ∧ available_functions !! name = None) ∨
  (∃ r tc, r ∈ script ∧ tc ∈ requested r ∧
           json_loads (tc_arguments tc) = None ∧
           e = json_loads_error (tc_arguments tc)).
Proof.
  unfold get_completion_loop.
  change script with (pending (initially init script)) at 2.
  generalize (initially init script) as st.
  induction (Z.to_nat max_iterations) as [|n IH]; intros st.
  - simpl. intros [= <-]. by left.
  - rewrite iterate_step. destruct (pending st) as [|r rest] eqn:Hst.
    { simpl. intros [= <-]. right. by left. }
    destruct (no_tool_calls r); [done|].
    destruct (failure (requested r)) as [e'|] eqn:Hfail.
    + simpl. intros [= ->].
      apply failure_inv in Hfail as (tc & Htc & Hex).
      apply exchange_raise_inv in Hex as [[-> Hnone]|[[-> Hname]|[-> _]]].
      * do 4 right. exists r, tc. repeat split; [by left|done..].
      * do 3 right. left. by exists (tc_name tc).
      * do 2 right. by left.
    + intros [?|[?|[?|[?|(r' & tc & Hr' & ? & ? & ?)]]]]%IH;
        [by left | right; by left | do 2 right; by left
        | do 3 right; by left |].
      do 4 right. exists r', tc. simpl in Hr'. rewrite Hst in Hr'. simpl in Hr'.
      repeat split; [by right|done..].
Qed.

(** X4. One request is served, whatever the state of the conversation,
    exactly when it names get_product_info or get_discount and its arguments
    are the JSON of an object with the single key product_id and a hashable
    value. *)
Theorem X4_request_served_iff tc st :
  (tool_call_body tc st).1 = Return () ↔
  (tc_name tc = "get_product_info" ∨ tc_name tc = "get_discount") ∧
  ∃ product_id,
    json_loads (tc_arguments tc) = Some (PyDict [("product_id", product_id)]) ∧
    hashable product_id = true.
Proof.
  rewrite tool_call_body_run. split.
  - destruct (exchange tc) as [ms|] eqn:Hex; [|done]. intros _.
    apply exchange_inv in Hex as (args & f & result & Hargs & Hf & Hcall & _).
    split; [apply registry_inv in Hf as [[? _]|[? _]]; [by left|by right]|].
    destruct (call_kwargs_inv f args) as [(v & -> & Hv)|[_ Hraise]]; [|congruence].
    exists v. split; [done|]. rewrite Hv in Hcall. by eapply tool_returns_hashable.
  - intros [Hname (v & Hargs & Hhash)].
    pose proof (dispatches_product_id tc v Hname Hargs Hhash) as Hd.
    unfold dispatches in Hd. by destruct (exchange tc).
Qed.

(** X5. A request for a registered tool whose arguments are JSON, but not an
    object with the single key product_id and a hashable value, makes
    get_completion_loop raise TypeError. The exchanges of the requests served
    before it stay in the caller's list and the engine is not called again. *)
Theorem X5_malformed_arguments_raise_TypeError
    init rs bad rest before tc after function_args (max_iterations : Z) :
  forallb complete rs = true →
  tool_calls bad = Some (before ++ tc :: after) →
  forallb dispatches before = true →
  is_Some (available_functions !! tc_name tc) →
  json_loads (tc_arguments tc) = Some function_args →
  (∀ product_id, function_args = PyDict [("product_id", product_id)] →
                 hashable product_id = false) →
  (Z.of_nat (length rs) < max_iterations)%Z →
  let run := get_completion_loop max_iterations (initially init (rs ++ bad :: rest)) in
  run.1 = Raise TypeError ∧
  messages run.2 = init ++ concat (map turn rs) ++ exchanges before ∧
  pending run.2 = rest ∧
  length (requests run.2) = S (length rs).
Proof.
  intros Hrs Hbad Hbefore [f Hf] Hargs Hshape Hlen run. subst run.
  unfold get_completion_loop.
  assert (Hex : exchange tc = Raise TypeError).
  { unfold exchange, tool_call_body, mbind, M_bind, lift; simpl.
    rewrite Hargs, Hf.
    destruct (call_kwargs_inv f function_args) as [(v & -> & Hv)|[_ ->]]; [|done].
    rewrite Hv. destruct (f v) as [result|e] eqn:Hfv.
    - pose proof (tool_returns_hashable _ _ _ _ Hf Hfv) as Hh.
      rewrite (Hshape v eq_refl) in Hh. done.
    - by apply (tool_raises_TypeError _ _ _ _ Hf) in Hfv as [-> _]. }
  assert (Hreq : requested bad = before ++ tc :: after).
  { unfold requested. by rewrite Hbad. }
  rewrite (iterate_fails rs bad rest TypeError); [| done | | | done | lia].
  - rewrite Hreq, served_app; [|done|]. 2: by unfold dispatches; rewrite Hex.
    simpl. rewrite <- app_assoc, length_app, length_snapshots, length_map. simpl.
    repeat split. lia.
  - unfold no_tool_calls. rewrite Hbad. by destruct before.
  - rewrite Hreq, failure_app by done. simpl. by rewrite Hex.
Qed.

(** X6. The schemas advertised in [tools] and the registry agree: a name is
    in available_functions exactly when a schema of [tools] bears it, every
    schema declares and requires the one parameter product_id, and a request
    that names an advertised tool with an object of that one key and a string
    value is served. *)
Theorem X6_advertised_tools_are_registered :
  (∀ name, is_Some (available_functions !! name) ↔ name ∈ schema_name <$> tools) ∧
  (∀ t, t ∈ tools →
        schema_required t = ["product_id"] ∧
        fst <$> schema_properties t = ["product_id"]) ∧
  (∀ t tc product_id st,
     t ∈ tools →
     tc_name tc = schema_name t →
     json_loads (tc_arguments tc) = Some (PyDict [("product_id", PyStr product_id)]) →
     (tool_call_body tc st).1 = Return ()).
Proof.
  assert (Htools : ∀ t, t ∈ tools →
            (schema_name t = "get_product_info" ∨ schema_name t = "get_discount") ∧
            schema_required t = ["product_id"] ∧
            fst <$> schema_properties t = ["product_id"]).
  { intros t Ht. unfold tools in Ht.
    apply elem_of_cons in Ht as [->|Ht]; [by split; [left|]|].
    apply elem_of_cons in Ht as [->|Ht]; [by split; [right|]|].
    by apply elem_of_nil in Ht. }
  split; [|split].
  - intros name. unfold available_functions, tools. simpl.
    rewrite !lookup_insert_is_Some, lookup_empty, !elem_of_cons, elem_of_nil.
    split.
    + intros [<-|[_ [<-|[_ []%is_Some_None]]]]; [by left|right; by left].
    + intros [->|[->|[]]]; [by left|]. right. split; [done|by left].
  - intros t Ht. by destruct (Htools t Ht) as (_ & ? & ?).
  - intros t tc product_id st Ht Hname Hargs.
    destruct (Htools t Ht) as (Hn & _ & _). rewrite <- Hname in Hn.
    pose proof (dispatches_product_id tc (PyStr product_id) Hn Hargs eq_refl) as Hd.
    rewrite tool_call_body_run. unfold dispatches in Hd. by destruct (exchange tc).
Qed.

End LoopBounds.

(** *** The two tools and their tables *)

Lemma MOCK_DB_keys product_id :
  MOCK_DB !! product_id = None ↔
  product_id ≠ "101" ∧ product_id ≠ "202" ∧ product_id ≠ "303".
Proof.
  unfold MOCK_DB. rewrite !lookup_insert_None, lookup_empty.
  split; [intros [[[_ ?] ?] ?] | intros (? & ? & ?)]; repeat split; congruence.
Qed.

Lemma MOCK_DISCOUNTS_keys product_id :
  MOCK_DISCOUNTS !! product_id = None ↔
  product_id ≠ "101" ∧ product_id ≠ "202" ∧ product_id ≠ "303".
Proof.
  unfold MOCK_DISCOUNTS. rewrite !lookup_insert_None, lookup_empty.
  split; [intros [[[_ ?] ?] ?] | intros (? & ? & ?)]; repeat split; congruence.
Qed.

Lemma MOCK_DISCOUNTS_range product_id discount :
  MOCK_DISCOUNTS !! product_id = Some discount → (1 ≤ discount ≤ 100)%Z.
Proof.
  unfold MOCK_DISCOUNTS. intros Hd.
  repeat (apply lookup_insert_Some in Hd as [[_ <-]|[_ Hd]]; [lia|]).
  by rewrite lookup_empty in Hd.
Qed.

Lemma MOCK_DB_no_error product_id record :
  MOCK_DB !! product_id = Some record →
  record ≠ PyDict [("error", PyStr "Product not found")].
Proof.
  unfold MOCK_DB. intros Hrecord.
  repeat (apply lookup_insert_Some in Hrecord as [[_ <-]|[_ Hrecord]]; [done|]).
  by rewrite lookup_empty in Hrecord.
Qed.

(** X7. For a string identifier, get_product_info returns the payload with
    the key "error" exactly when the identifier is not a key of MOCK_DB: no
    stored record can be taken for the error payload. *)
Theorem X7_error_payload_iff_absent (product_id : string) :
  get_product_info (PyStr product_id)
  = Return (PyDict [("error", PyStr "Product not found")]) ↔
  MOCK_DB !! product_id = None.
Proof.
  unfold get_product_info. simpl.
  destruct (MOCK_DB !! product_id) as [record|] eqn:Hrecord; [|done].
  rewrite (MOCK_DB_truthy _ _ Hrecord). split; [|done].
  intros [= Heq]. by apply MOCK_DB_no_error in Hrecord.
Qed.

(** X8. For every hashable argument get_discount returns a payload whose
    discount_percentage lies between 0 and 100, and it is 0 exactly when the
    argument is not a key of MOCK_DISCOUNTS: every stored discount is at
    least 1. *)
Theorem X8_discount_is_a_percentage (product_id : PyVal) :
  hashable product_id = true →
  ∃ discount,
    get_discount product_id = Return (PyDict [("discount_percentage", PyInt discount)]) ∧
    (0 ≤ discount ≤ 100)%Z ∧
    (discount = 0 ↔ ∀ s, product_id = PyStr s → MOCK_DISCOUNTS !! s = None).
Proof.
  intros Hhash. unfold get_discount.
  destruct product_id as [|b|z|r|s|l|items]; try done;
    try (exists 0; simpl; split; [done|]; split; [lia|];
         split; [by intros _ s' [=] | done]).
  cbn [dict_get]. destruct (MOCK_DISCOUNTS !! s) as [d|] eqn:Hd.
  - exists d. pose proof (MOCK_DISCOUNTS_range _ _ Hd). repeat split; try lia.
    intros Hnone. specialize (Hnone s eq_refl). congruence.
  - exists 0. repeat split; try lia. by intros _ s' [= <-].
Qed.

(** X9. Both tools raise exactly when product_id is a list or a dict, the
    values without a hash, and the exception is then TypeError. *)
Theorem X9_tools_raise_iff_unhashable (product_id : PyVal) :
  (get_product_info product_id = Raise TypeError ↔ hashable product_id = false) ∧
  (get_discount product_id = Raise TypeError ↔ hashable product_id = false) ∧
  (∀ e, get_product_info product_id = Raise e ∨ get_discount product_id = Raise e →
        e = TypeError).
Proof.
  unfold get_product_info, get_discount.
  destruct product_id; simpl; repeat split; try done;
    try (intros e [[= <-]|[= <-]]; done); intros e [?|?]; done.
Qed.

(** X10. The two tables hold the same products: for a string identifier,
    get_product_info answers with the error payload exactly when get_discount
    answers with the discount 0. *)
Theorem X10_tables_hold_the_same_products (product_id : string) :
  get_product_info (PyStr product_id)
  = Return (PyDict [("error", PyStr "Product not found")]) ↔
  get_discount (PyStr product_id)
  = Return (PyDict [("discount_percentage", PyInt 0)]).
Proof.
  assert (Hinfo : get_product_info (PyStr product_id)
                  = Return (PyDict [("error", PyStr "Product not found")]) ↔
                  MOCK_DB !! product_id = None).
  { unfold get_product_info. simpl.
    destruct (MOCK_DB !! product_id) as [record|] eqn:Hrecord; [|done].
    rewrite (MOCK_DB_truthy _ _ Hrecord). split; [|done].
    intros [= Heq]. by apply MOCK_DB_no_error in Hrecord. }
  assert (Hdiscount : get_discount (PyStr product_id)
                      = Return (PyDict [("discount_percentage", PyInt 0)]) ↔
                      MOCK_DISCOUNTS !! product_id = None).
  { unfold get_discount. simpl.
    destruct (MOCK_DISCOUNTS !! product_id) as [d|] eqn:Hd; [|done].
    split; [|done]. intros [= ->]. apply MOCK_DISCOUNTS_range in Hd. lia. }
  by rewrite Hinfo, Hdiscount, MOCK_DB_keys, MOCK_DISCOUNTS_keys.
Qed.

(** ** Further properties of HW3/mcp-server.py *)

Section ReadabilityThreshold.
Context {Char : Type} (isspace : Char → bool).

Lemma sum_len_split_from (s : list Char) : ∀ word,
  HW3.sum_len (HW3.split_from isspace word s)
  = (Z.of_nat (length word)
     + Z.of_nat (length (List.filter (λ c, negb (isspace c)) s)))%Z.
Proof.
  induction s as [|c s IH]; intros word; simpl.
  - destruct word; simpl; [done|]. rewrite length_app, length_rev. simpl. lia.
  - destruct (isspace c); simpl.
    + destruct word; simpl; rewrite IH; simpl; [done|].
      rewrite length_app, length_rev. simpl. lia.
    + rewrite IH. simpl. lia.
Qed.

Lemma split_from_leading (ws s : list Char) :
  forallb isspace ws = true →
  HW3.split_from isspace [] (ws ++ s) = HW3.split_from isspace [] s.
Proof.
  induction ws as [|c ws IH]; [done|]. simpl.
  intros [-> Hws]%andb_true_iff. by apply IH.
Qed.

Lemma split_from_trailing (ws s : list Char) : ∀ word,
  forallb isspace ws = true →
  HW3.split_from isspace word (s ++ ws) = HW3.split_from isspace word s.
Proof.
  induction s as [|c s IH]; intros word Hws; simpl.
  - destruct ws as [|c ws]; [done|]. simpl in *.
    apply andb_true_iff in Hws as [-> Hws].
    rewrite (split_from_whitespace isspace ws Hws). by destruct word.
  - destruct (isspace c); [destruct word|]; by rewrite IH.
Qed.

Lemma Qle_bool_6_div (a b : Z) :
  (1 ≤ b)%Z → Qle_bool 6 (inject_Z a / inject_Z b) = Z.leb (6 * b) a.
Proof.
  intros Hb. destruct b as [|p|p]; try lia.
  unfold Qle_bool, Qdiv, Qmult, Qinv, inject_Z. simpl.
  by rewrite !Z.mul_1_r, Pos.mul_1_l.
Qed.

(** X11. The reading level is decided by whole numbers: the report says
    College (and Could be simpler) exactly when the text has at least one
    word and its characters that are not whitespace number at least six times
    its words; otherwise it says 8th grade (and Good). *)
Theorem X11_reading_level_threshold (content : list Char) :
  let words := Z.of_nat (length (HW3.split isspace content)) in
  let letters := Z.of_nat (length (List.filter (λ c, negb (isspace c)) content)) in
  let college := Z.leb 1 words && Z.leb (6 * words) letters in
  (words ≤ letters)%Z ∧
  HW3.analyze_readability isspace content
  = Return (HW3.newline +:+ "Word Count: " +:+ pretty words +:+ HW3.newline +:+
            "Reading Level: " +:+ (if college then "College" else "8th grade")
              +:+ HW3.newline +:+
            "Clarity: " +:+ (if college then "Could be simpler" else "Good")
              +:+ HW3.newline).
Proof.
  intros words letters college.
  assert (Hsum : HW3.sum_len (HW3.split isspace content) = letters).
  { unfold HW3.split. by rewrite sum_len_split_from. }
  assert (Hwords : (words ≤ letters)%Z).
  { rewrite <- Hsum. subst words. unfold HW3.split.
    generalize (@nil Char) as word. clear.
    induction content as [|c s IH]; intros word; simpl.
    - destruct word; simpl; [done|].
      rewrite length_app, length_rev. simpl. lia.
    - destruct (isspace c).
      + destruct word; [apply IH|]. simpl. specialize (IH []).
        rewrite length_app, length_rev. simpl. lia.
      + apply IH. }
  split; [done|].
  unfold HW3.analyze_readability, HW3.truediv. fold words. rewrite Hsum.
  destruct (Z.eqb_spec (Z.max words 1) 0) as [?|_]; [lia|].
  rewrite Qle_bool_6_div by lia.
  assert (Hnone : words = 0%Z → letters = 0%Z).
  { intros Hw. rewrite <- Hsum. subst words.
    by destruct (HW3.split isspace content). }
  assert (Hc : Z.leb (6 * Z.max words 1) letters = college).
  { subst college. destruct (Z.leb_spec 1 words) as [Hw|Hw]; simpl.
    - by rewrite Z.max_l by lia.
    - rewrite Z.max_r by lia. apply Z.leb_gt.
      assert (words = 0%Z) as Hw0 by (subst words; lia).
      rewrite (Hnone Hw0). lia. }
  rewrite Hc. by destruct college.
Qed.

(** X12. Whitespace around a text does not change its report. *)
Theorem X12_surrounding_whitespace_ignored (before content after : list Char) :
  forallb isspace before = true →
  forallb isspace after = true →
  HW3.analyze_readability isspace (before ++ content ++ after)
  = HW3.analyze_readability isspace content.
Proof.
  intros Hbefore Hafter. unfold HW3.analyze_readability, HW3.split.
  by rewrite split_from_leading, split_from_trailing.
Qed.

End ReadabilityThreshold.

Section McpServerProperties.
Import McpServer.

Lemma foldl_append_filter {A B : Type} (P : A → bool) (f : A → B) (l : list A) :
  ∀ acc,
    foldl (λ acc x, if P x then acc ++ [f x] else acc) acc l
    = acc ++ map f (List.filter P l).
Proof.
  induction l as [|x l IH]; intros acc; simpl; [by rewrite app_nil_r|].
  rewrite IH. destruct (P x); [|done]. simpl. by rewrite <- app_assoc.
Qed.

Lemma foldl_append_map {A B : Type} (f : A → B) (l : list A) :
  ∀ acc, foldl (λ acc x, acc ++ [f x]) acc l = acc ++ map f l.
Proof.
  induction l as [|x l IH]; intros acc; simpl; [by rewrite app_nil_r|].
  rewrite IH. by rewrite <- app_assoc.
Qed.

Lemma filter_nil_iff {A : Type} (P : A → bool) (l : list A) :
  List.filter P l = [] ↔ ∀ x, x ∈ l → P x = false.
Proof.
  induction l as [|x l IH]; simpl.
  - split; [|done]. intros _ x Hx. by apply elem_of_nil in Hx.
  - destruct (P x) eqn:HP.
    + split; [done|]. intros Hall. specialize (Hall x (list_elem_of_here _ _)). congruence.
    + rewrite IH. split.
      * intros Hall y [->|Hy]%elem_of_cons; [done|by apply Hall].
      * intros Hall y Hy. apply Hall. by right.
Qed.

(** The first character of a text joined from parts is the first of its
    first part. *)
Lemma join_head sep c part parts :
  ∃ rest, join sep ((c :: part) :: parts) = c :: rest.
Proof. destruct parts; simpl; by eexists. Qed.

Lemma contains_nil s : contains [] s = true.
Proof. by destruct s. Qed.

Lemma count_skipping_absent sub s : ∀ skip,
  contains sub s = false → count_skipping sub skip s = 0%nat.
Proof.
  induction s as [|c s IH]; intros skip; [done|].
  cbn [contains count_skipping].
  intros [Hhere Hlater]%orb_false_iff.
  destruct skip; [|by apply IH]. rewrite Hhere. by apply IH.
Qed.

(** *** check_platform_constraints *)

Lemma check_platform_constraints_valid content_type content :
  accepted (check_platform_constraints content_type content) = true ↔
  (rule_min (length_rule content_type) ≤ Z.of_nat (length content)
   ≤ rule_max (length_rule content_type))%Z.
Proof.
  unfold accepted, check_platform_constraints. fold (length_rule content_type).
  destruct (Z.leb_spec (rule_min (length_rule content_type)) (Z.of_nat (length content)));
    destruct (Z.leb_spec (Z.of_nat (length content)) (rule_max (length_rule content_type)));
    simpl; (split; [try done; lia | try done; lia]).
Qed.

Lemma length_rule_cases content_type :
  (content_type = lit "product_title" ∧
   length_rule content_type = {| rule_max := 200; rule_min := 10 |}) ∨
  (content_type = lit "short_description" ∧
   length_rule content_type = {| rule_max := 500; rule_min := 50 |}) ∨
  (content_type = lit "meta_description" ∧
   length_rule content_type = {| rule_max := 160; rule_min := 50 |}) ∨
  (content_type ≠ lit "product_title" ∧
   content_type ≠ lit "short_description" ∧
   content_type ≠ lit "meta_description" ∧
   length_rule content_type = {| rule_max := 1000; rule_min := 10 |}).
Proof.
  unfold length_rule, dict_lookup, rules. cbn [List.find fst snd].
  repeat case_bool_decide; subst; simpl; intuition congruence.
Qed.

(** X13. check_platform_constraints accepts a length exactly when it lies
    between the two bounds of the rule, both included: 10 to 200 for
    product_title, 50 to 500 for short_description, 50 to 160 for
    meta_description, and 10 to 1000 for every other content type. Hence no
    content type accepts a text of fewer than 10 or more than 1000
    characters, the empty text among them. *)
Theorem X13_accepted_lengths content_type content :
  let n := Z.of_nat (length content) in
  (accepted (check_platform_constraints content_type content) = true → (10 ≤ n ≤ 1000)%Z) ∧
  (content_type = lit "product_title" →
   (accepted (check_platform_constraints content_type content) = true ↔ (10 ≤ n ≤ 200)%Z)) ∧
  (content_type = lit "short_description" →
   (accepted (check_platform_constraints content_type content) = true ↔ (50 ≤ n ≤ 500)%Z)) ∧
  (content_type = lit "meta_description" →
   (accepted (check_platform_constraints content_type content) = true ↔ (50 ≤ n ≤ 160)%Z)) ∧
  (content_type ≠ lit "product_title" →
   content_type ≠ lit "short_description" →
   content_type ≠ lit "meta_description" →
   (accepted (check_platform_constraints content_type content) = true ↔ (10 ≤ n ≤ 1000)%Z)).
Proof.
  intros n. subst n. rewrite check_platform_constraints_valid.
  destruct (length_rule_cases content_type)
    as [[Ht ->]|[[Ht ->]|[[Ht ->]|(Ht1 & Ht2 & Ht3 & ->)]]]; simpl;
    (split; [lia|]); repeat split; intros; subst; try done; simpl in *; lia.
Qed.

(** X14. A text accepted as meta_description is accepted under every content
    type, and a text accepted under any content type is accepted under a
    content type that has no rule of its own. *)
Theorem X14_rules_are_nested content :
  (accepted (check_platform_constraints (lit "meta_description") content) = true →
   ∀ content_type, accepted (check_platform_constraints content_type content) = true) ∧
  (∀ content_type other,
     accepted (check_platform_constraints content_type content) = true →
     other ≠ lit "product_title" →
     other ≠ lit "short_description" →
     other ≠ lit "meta_description" →
     accepted (check_platform_constraints other content) = true).
Proof.
  split.
  - rewrite check_platform_constraints_valid. simpl. intros Hmeta content_type.
    rewrite check_platform_constraints_valid.
    destruct (length_rule_cases content_type)
      as [[_ ->]|[[_ ->]|[[_ ->]|(_ & _ & _ & ->)]]]; simpl; lia.
  - intros content_type other Hvalid H1 H2 H3.
    rewrite check_platform_constraints_valid in *.
    destruct (length_rule_cases other)
      as [[? _]|[[? _]|[[? _]|(_ & _ & _ & ->)]]]; try done.
    destruct (length_rule_cases content_type)
      as [[_ Hr]|[[_ Hr]|[[_ Hr]|(_ & _ & _ & Hr)]]];
      rewrite Hr in Hvalid; simpl in *; lia.
Qed.

(** X22. get_product_catalog answers with a text that starts with "Error:"
    exactly when product_id is neither PROD001 nor PROD002, letter case
    included, and that text then names the identifier as it was given. *)
Theorem X22_catalog_error_iff_unknown product_id :
  (starts_with (lit "Error:") (get_product_catalog product_id) = true ↔
   product_id ≠ lit "PROD001" ∧ product_id ≠ lit "PROD002") ∧
  (product_id ≠ lit "PROD001" → product_id ≠ lit "PROD002" →
   get_product_catalog product_id
   = lit "Error: Product " ++ product_id ++ lit " not found").
Proof.
  unfold get_product_catalog, dict_lookup, catalog. cbn [List.find fst snd].
  repeat case_bool_decide; subst; cbn [fmap option_fmap option_map]; split;
    try (intros; congruence); try done.
  - split; [done|]. by intros [? _].
  - split; [done|]. by intros [_ ?].
Qed.

(** X23. Every answer of get_brand_guidelines carries a Brand Tone line, and
    it carries a Forbidden Claims line exactly for the two categories
    Computer Accessories and Kitchen & Dining, spelled in that letter case:
    for any other category the answer names no forbidden claim. *)
Theorem X23_guidelines_by_category category :
  contains (lit "Brand Tone: ") (get_brand_guidelines category) = true ∧
  (contains (lit "Forbidden Claims: ") (get_brand_guidelines category) = true ↔
   category = lit "Computer Accessories" ∨ category = lit "Kitchen & Dining").
Proof.
  unfold get_brand_guidelines, dict_lookup, guidelines. cbn [List.find fst snd].
  repeat case_bool_decide; subst; cbn [fmap option_fmap option_map default];
    (split; [by vm_compute|]).
  - split; [by left|]. intros _. by vm_compute.
  - split; [by right|]. intros _. by vm_compute.
  - split; [|by intros [?|?]]. by vm_compute.
Qed.

End McpServerProperties.

Section LowercaseProperties.
Import McpServer.
Context (lower : str → str).

Lemma join_cons sep part parts :
  ∃ rest, join sep (part :: parts) = part ++ rest.
Proof. destruct parts; simpl; [exists []; by rewrite app_nil_r | by eexists]. Qed.

Lemma starts_with_app sub s : starts_with sub (sub ++ s) = true.
Proof.
  induction sub as [|c sub IH]; [done|]. simpl. by rewrite N.eqb_refl, IH.
Qed.

Lemma check_brand_compliance_run content forbidden_terms :
  check_brand_compliance lower content forbidden_terms =
  match List.filter (λ term, contains (lower term) (lower content)) forbidden_terms with
  | [] => lit "No brand violations detected"
  | found =>
      join (lit HW3.newline)
           (map (λ term, lit "Forbidden term detected: '" ++ term ++ lit "'") found)
  end.
Proof.
  unfold check_brand_compliance.
  rewrite (foldl_append_filter
             (λ term, contains (lower term) (lower content))
             (λ term, lit "Forbidden term detected: '" ++ term ++ lit "'")).
  simpl. by destruct (List.filter _ forbidden_terms).
Qed.

(** X15. check_brand_compliance reports No brand violations detected exactly
    when no forbidden term, put in lower case, occurs in the content put in
    lower case. *)
Theorem X15_clean_report_iff_no_term_occurs content forbidden_terms :
  check_brand_compliance lower content forbidden_terms
  = lit "No brand violations detected" ↔
  ∀ term, term ∈ forbidden_terms → contains (lower term) (lower content) = false.
Proof.
  rewrite check_brand_compliance_run, <- filter_nil_iff.
  destruct (List.filter _ forbidden_terms) as [|term found]; [done|].
  split; [|done]. cbn [map].
  destruct (join_head (lit HW3.newline) 70%N
              (lit "orbidden term detected: '" ++ term ++ lit "'")
              (map (λ term, lit "Forbidden term detected: '" ++ term ++ lit "'") found))
    as [rest Hrest].
  change (lit "Forbidden term detected: '" ++ term ++ lit "'")
    with (70%N :: lit "orbidden term detected: '" ++ term ++ lit "'").
  rewrite Hrest. done.
Qed.

(** X16. An empty forbidden term occurs in every content: when the list holds
    one, the report is a list of violations whatever the content is. *)
Theorem X16_empty_term_flags_every_content content forbidden_terms :
  lower [] = [] →
  [] ∈ forbidden_terms →
  starts_with (lit "Forbidden term detected: '")
              (check_brand_compliance lower content forbidden_terms) = true ∧
  check_brand_compliance lower content forbidden_terms
  ≠ lit "No brand violations detected".
Proof.
  intros Hlower Hin. rewrite check_brand_compliance_run.
  destruct (List.filter _ forbidden_terms) as [|term found] eqn:Hfound.
  - apply filter_nil_iff with (x := []) in Hfound; [|done].
    by rewrite Hlower, contains_nil in Hfound.
  - cbn [map].
    destruct (join_cons (lit HW3.newline)
                (lit "Forbidden term detected: '" ++ term ++ lit "'")
                (map (λ term, lit "Forbidden term detected: '" ++ term ++ lit "'") found))
      as [rest ->].
    rewrite <- app_assoc. split; [apply starts_with_app|done].
Qed.

Lemma verify_fact_consistency_run brief content :
  verify_fact_consistency lower brief content =
  match List.filter (λ term, contains (lit term) (lower brief) &&
                             negb (contains (lit term) (lower content))) key_terms with
  | [] => lit "Content consistent with brief"
  | missing =>
      join (lit HW3.newline)
           (map (λ term, lit "Brief mentions '" ++ lit term ++
                         lit "' but content doesn't") missing)
  end.
Proof.
  unfold verify_fact_consistency.
  rewrite (foldl_append_filter
             (λ term, contains (lit term) (lower brief) &&
                      negb (contains (lit term) (lower content)))
             (λ term, lit "Brief mentions '" ++ lit term ++ lit "' but content doesn't")).
  rewrite app_nil_l. by destruct (List.filter _ key_terms).
Qed.

(** X17. A text is always consistent with itself: verify_fact_consistency
    finds nothing missing when the content is the brief. *)
Theorem X17_brief_consistent_with_itself brief :
  verify_fact_consistency lower brief brief = lit "Content consistent with brief".
Proof.
  rewrite verify_fact_consistency_run.
  replace (List.filter _ key_terms) with (@nil string); [done|].
  symmetry. apply filter_nil_iff. intros term _. apply andb_negb_r.
Qed.

(** X18. verify_fact_consistency reports Content consistent with brief
    exactly when each of the six key terms that occurs in the brief, put in
    lower case, also occurs in the content, put in lower case; a brief that
    mentions no key term is consistent with every content. *)
Theorem X18_consistent_iff_key_terms_kept brief content :
  verify_fact_consistency lower brief content = lit "Content consistent with brief" ↔
  ∀ term, term ∈ key_terms →
          contains (lit term) (lower brief) = true →
          contains (lit term) (lower content) = true.
Proof.
  rewrite verify_fact_consistency_run.
  assert (Hiff : List.filter (λ term, contains (lit term) (lower brief) &&
                                      negb (contains (lit term) (lower content)))
                             key_terms = [] ↔
                 ∀ term, term ∈ key_terms →
                         contains (lit term) (lower brief) = true →
                         contains (lit term) (lower content) = true).
  { rewrite filter_nil_iff. split; intros Hall term Hterm.
    - intros Hb. specialize (Hall term Hterm). rewrite Hb in Hall.
      by destruct (contains (lit term) (lower content)).
    - specialize (Hall term Hterm).
      destruct (contains (lit term) (lower brief)); [|done].
      by rewrite Hall. }
  rewrite <- Hiff.
  destruct (List.filter _ key_terms) as [|term missing]; [done|].
  split; [|done]. cbn [map].
  destruct (join_head (lit HW3.newline) 66%N
              (lit "rief mentions '" ++ lit term ++ lit "' but content doesn't")
              (map (λ term, lit "Brief mentions '" ++ lit term ++
                            lit "' but content doesn't") missing))
    as [rest Hrest].
  change (lit "Brief mentions '" ++ lit term ++ lit "' but content doesn't")
    with (66%N :: lit "rief mentions '" ++ lit term ++ lit "' but content doesn't").
  rewrite Hrest. done.
Qed.

(** X19. validate_seo_keywords judges each keyword on its own: the report for
    a list of keywords is the reports of the single keywords, in the order of
    the list, joined by line breaks. *)
Theorem X19_keywords_judged_independently content keywords :
  validate_seo_keywords lower content keywords
  = join (lit HW3.newline)
         (map (λ keyword, validate_seo_keywords lower content [keyword]) keywords).
Proof.
  unfold validate_seo_keywords.
  rewrite (foldl_append_map
             (λ keyword,
                keyword ++ lit ": " ++ lit (pretty (count (lower keyword) (lower content))) ++
                lit " occurrences - " ++
                lit (if Z.leb 1 (count (lower keyword) (lower content)) &&
                        Z.leb (count (lower keyword) (lower content)) 5
                     then "Good" else "Needs adjustment"))).
  done.
Qed.

(** X20. A keyword that does not occur in the content, both put in lower
    case, is reported with 0 occurrences and Needs adjustment. *)
Theorem X20_absent_keyword_needs_adjustment content keyword :
  contains (lower keyword) (lower content) = false →
  validate_seo_keywords lower content [keyword]
  = keyword ++ lit ": 0 occurrences - Needs adjustment".
Proof.
  intros Habsent. unfold validate_seo_keywords. simpl.
  assert (Hcount : count (lower keyword) (lower content) = 0%Z).
  { unfold count. destruct (lower keyword) as [|c sub] eqn:Hk.
    - by rewrite contains_nil in Habsent.
    - by rewrite count_skipping_absent. }
  by rewrite Hcount.
Qed.

(** X21. A keyword whose lower case is the empty text counts one occurrence
    more than the content has characters: it is Good only for a content of at
    most 4 characters. *)
Theorem X21_empty_keyword_counts_every_gap content keyword :
  lower keyword = [] →
  let n := Z.of_nat (length (lower content)) in
  validate_seo_keywords lower content [keyword]
  = keyword ++ lit ": " ++ lit (pretty (n + 1)%Z) ++ lit " occurrences - " ++
    lit (if Z.leb n 4 then "Good" else "Needs adjustment").
Proof.
  intros Hk n. unfold validate_seo_keywords. simpl. rewrite Hk. simpl. fold n.
  replace (Z.leb 1 (n + 1) && Z.leb (n + 1) 5) with (Z.leb n 4); [done|].
  subst n. destruct (Z.leb_spec (Z.of_nat (length (lower content))) 4);
    symmetry; [apply andb_true_iff; split; apply Z.leb_le; lia|].
  apply andb_false_iff. right. apply Z.leb_gt. lia.
Qed.

End LowercaseProperties.

(** ** The further properties on concrete inputs *)

Section FurtherRuns.
Import ExampleJson.
#[local] Existing Instance json.

Lemma X2_no_budget_raises_at_once_witness :
  get_completion_loop (-3) (initially prompt [answer])
  = (Raise (Exception "Max iterations reached without completion."),
     initially prompt [answer]).
Proof. apply (X2_no_budget_raises_at_once (initially prompt [answer]) (-3)). lia. Defined.

Lemma X3_exceptions_of_the_loop_witness :
  (get_completion_loop 10 (initially prompt [asks [call_price]; answer])).1
  = Raise (KeyError "get_price") ∧
  (KeyError "get_price" = Exception "Max iterations reached without completion." ∨
   KeyError "get_price" = APIError ∨
   KeyError "get_price" = TypeError ∨
   (∃ name, KeyError "get_price" = KeyError name ∧ available_functions !! name = None) ∨
   (∃ r tc, r ∈ [asks [call_price]; answer] ∧ tc ∈ requested r ∧
            json_loads (tc_arguments tc) = None ∧
            KeyError "get_price" = json_loads_error (tc_arguments tc))).
Proof.
  split; [vm_compute; reflexivity|].
  apply (X3_exceptions_of_the_loop prompt [asks [call_price]; answer] 10).
  vm_compute. reflexivity.
Defined.

Lemma X5_malformed_arguments_raise_TypeError_witness :
  let tc := {| tc_id := "call_4"; tc_name := "get_discount";
               tc_arguments := dumps (PyDict []) |} in
  let run := get_completion_loop 10
               (initially prompt ([] ++ asks [call_info; tc] :: [answer])) in
  run.1 = Raise TypeError ∧
  messages run.2 = prompt ++ concat (map turn []) ++ exchanges [call_info] ∧
  pending run.2 = [answer] ∧
  length (requests run.2) = 1%nat.
Proof.
  intros tc.
  apply (X5_malformed_arguments_raise_TypeError prompt [] (asks [call_info; tc]) [answer]
           [call_info] tc [] (PyDict []) 10).
  - reflexivity.
  - reflexivity.
  - vm_compute. reflexivity.
  - exists get_discount. vm_compute. reflexivity.
  - vm_compute. reflexivity.
  - intros product_id Heq. discriminate Heq.
  - simpl. lia.
Defined.

Lemma X6_advertised_tools_are_registered_witness :
  (tool_call_body call_info (initially prompt [])).1 = Return ().
Proof.
  apply (proj2 (proj2 X6_advertised_tools_are_registered)
               {| schema_name := "get_product_info";
                  schema_description := "Get product information.";
                  schema_properties := [("product_id", ("string", "Product ID such as '101'"))];
                  schema_required := ["product_id"] |}
               call_info "202" (initially prompt [])).
  - apply list_elem_of_here.
  - reflexivity.
  - vm_compute. reflexivity.
Defined.

End FurtherRuns.

Lemma X8_discount_is_a_percentage_witness :
  ∃ discount,
    get_discount (PyStr "202") = Return (PyDict [("discount_percentage", PyInt discount)]) ∧
    (0 ≤ discount ≤ 100)%Z ∧
    (discount = 0 ↔ ∀ s, PyStr "202" = PyStr s → MOCK_DISCOUNTS !! s = None).
Proof. apply (X8_discount_is_a_percentage (PyStr "202")). reflexivity. Defined.

Lemma X12_surrounding_whitespace_ignored_witness :
  let text := String.list_ascii_of_string in
  HW3.analyze_readability HW3.ascii_isspace
    (text "  " ++ text "wireless mouse" ++ text " ")
  = HW3.analyze_readability HW3.ascii_isspace (text "wireless mouse").
Proof.
  intros text.
  apply (X12_surrounding_whitespace_ignored HW3.ascii_isspace
           (text "  ") (text "wireless mouse") (text " ")); reflexivity.
Defined.

Lemma X14_rules_are_nested_witness :
  accepted (McpServer.check_platform_constraints
              (McpServer.lit "meta_description") (replicate 60 65%N)) = true ∧
  accepted (McpServer.check_platform_constraints
              (McpServer.lit "product_title") (replicate 60 65%N)) = true.
Proof.
  split; [vm_compute; reflexivity|].
  apply (proj1 (X14_rules_are_nested (replicate 60 65%N))).
  vm_compute. reflexivity.
Defined.

Lemma X16_empty_term_flags_every_content_witness :
  let terms := [McpServer.lit "unbreakable"; []] in
  let report := McpServer.check_brand_compliance McpServer.ascii_lower
                  (McpServer.lit "A sturdy mug") terms in
  McpServer.starts_with (McpServer.lit "Forbidden term detected: '") report = true ∧
  report ≠ McpServer.lit "No brand violations detected".
Proof.
  intros terms.
  apply (X16_empty_term_flags_every_content McpServer.ascii_lower
           (McpServer.lit "A sturdy mug") terms).
  - reflexivity.
  - apply list_elem_of_further, list_elem_of_here.
Defined.

Lemma X20_absent_keyword_needs_adjustment_witness :
  McpServer.validate_seo_keywords McpServer.ascii_lower
    (McpServer.lit "Wireless Mouse") [McpServer.lit "Bamboo"]
  = McpServer.lit "Bamboo" ++ McpServer.lit ": 0 occurrences - Needs adjustment".
Proof.
  apply (X20_absent_keyword_needs_adjustment McpServer.ascii_lower
           (McpServer.lit "Wireless Mouse") (McpServer.lit "Bamboo")).
  vm_compute. reflexivity.
Defined.

Lemma X21_empty_keyword_counts_every_gap_witness :
  McpServer.validate_seo_keywords McpServer.ascii_lower (McpServer.lit "Mug") [[]]
  = [] ++ McpServer.lit ": " ++ McpServer.lit (pretty (3 + 1)%Z) ++
    McpServer.lit " occurrences - " ++ McpServer.lit "Good".
Proof.
  apply (X21_empty_keyword_counts_every_gap McpServer.ascii_lower
           (McpServer.lit "Mug") []).
  reflexivity.
Defined.

(** On arguments that [json.loads] refuses for their length, the exception of
    line 92 leaves the loop before the registry is consulted: ValueError,
    for a registered tool and for an unknown one alike. *)
Lemma digit_limit_raises_ValueError :
  let known := {| tc_id := "call_5"; tc_name := "get_discount";
                  tc_arguments := ExampleJson.long_integer_args |} in
  let unknown := {| tc_id := "call_6"; tc_name := "get_price";
                    tc_arguments := ExampleJson.long_integer_args |} in
  (get_completion_loop (H := ExampleJson.json_with_digit_limit) 10
     (initially ExampleJson.prompt [ExampleJson.asks [known]; ExampleJson.answer])).1
  = Raise ValueError ∧
  (get_completion_loop (H := ExampleJson.json_with_digit_limit) 10
     (initially ExampleJson.prompt [ExampleJson.asks [unknown]; ExampleJson.answer])).1
  = Raise ValueError.
Proof. vm_compute. split; reflexivity. Qed.
